(** * coda-mcp: the tool handlers of [src/server.ts]

    A shallow embedding of the handlers registered with [server.tool] in
    [src/server.ts] that carry the content-retrieval, pagination-cursor and
    bulk-update logic, together with the properties stated about them.

    Conventions of the embedding.
    - A JavaScript string is a [string]; the only characters the handlers
      inspect are line feed and carriage return, which are single code units in
      UTF-16 and single bytes in UTF-8, so the encoding does not matter.
    - An [async] function is a computation in the monad [Async]: it threads the
      state of the outside world and a log of the calls made to the imported
      client functions, and ends either with a value or with a thrown value.
    - The imported functions ([getPageContent] of [./client/helpers], and
      [listPages], [createPage], [updateRow] of [./client/sdk.gen]) are the
      fields of a record [Upstream]: exactly what the test-suite replaces by
      mocks. *)

From Stdlib Require Import String Ascii List ZArith Lia Bool Arith.
Import ListNotations.
Local Open Scope string_scope.

(* ------------------------------------------------------------------------- *)
(** ** JavaScript values used by the handlers *)

Module Js.

(** Primitive values that can be thrown besides [Error] objects. *)
Inductive primitive : Type :=
| Undefined
| Null
| Boolean (b : bool)
| Str (s : string).

(** What a [catch (error)] clause can receive: an [Error] with its message,
    a plain object (such as the parsed body of an error response), or a
    primitive value. *)
Inductive thrown : Type :=
| ErrorObject (message : string)
| PlainObject
| Primitive (p : primitive).

(** [String(p)] *)
Definition String_ (p : primitive) : string :=
  match p with
  | Undefined => "undefined"
  | Null => "null"
  | Boolean true => "true"
  | Boolean false => "false"
  | Str s => s
  end.

(** [error instanceof Error ? error.message : String(error)] *)
Definition error_message (error : thrown) : string :=
  match error with
  | ErrorObject message => message
  | PlainObject => "[object Object]"
  | Primitive p => String_ p
  end.

(** Truthiness of a value of type [string | undefined]: [undefined] and the
    empty string are falsy, every other string is truthy. *)
Definition truthy (v : option string) : bool :=
  match v with
  | None => false
  | Some EmptyString => false
  | Some (String _ _) => true
  end.

(** [v ?? d]: [d] only when [v] is [undefined] (or [null]). *)
Definition nullish {A : Type} (v : option A) (d : option A) : option A :=
  match v with
  | Some x => Some x
  | None => d
  end.

(** JSON data carried by the responses of the upstream API. *)
#[local] Unset Elimination Schemes.
Inductive json : Type :=
| JNull
| JBool (b : bool)
| JNumber (n : Z)
| JString (s : string)
| JArray (items : list json)
| JObject (fields : list (string * json)).
#[local] Set Elimination Schemes.

(** [Array.prototype.slice(0, end)] for an integer [end]: a negative [end]
    counts from the end of the array, and the result is clamped to the
    array. *)
Definition slice0 {A : Type} (xs : list A) (end_ : Z) : list A :=
  let len := Z.of_nat (List.length xs) in
  let final := if (end_ <? 0)%Z then Z.max (len + end_) 0 else Z.min end_ len in
  firstn (Z.to_nat final) xs.

(** [Array.prototype.join(sep)] on an array of strings. *)
Fixpoint join (sep : string) (xs : list string) : string :=
  match xs with
  | [] => ""
  | [x] => x
  | x :: (_ :: _) as rest => x ++ sep ++ join sep rest
  end.

Definition LF : ascii := "010"%char.
Definition CR : ascii := "013"%char.

(** [s.split(/\r?\n/)].  The pattern matches a line feed, together with the
    carriage return directly before it when there is one; it never matches
    the empty string.  [split] scans the string from the left, cuts it at
    every match and drops the matched characters; a string without a match
    (the empty string included) yields itself as the only element. *)
Fixpoint split_line_breaks (s : string) : list string :=
  match s with
  | EmptyString => [EmptyString]
  | String c rest =>
      let keep :=
        match split_line_breaks rest with
        | [] => [String c EmptyString]
        | line :: lines => String c line :: lines
        end in
      if Ascii.eqb c LF then EmptyString :: split_line_breaks rest
      else if Ascii.eqb c CR then
        match rest with
        | String c' rest' =>
            if Ascii.eqb c' LF then EmptyString :: split_line_breaks rest'
            else keep
        | EmptyString => keep
        end
      else keep
  end.

End Js.
Import Js.

(* ------------------------------------------------------------------------- *)
(** ** The imported client functions *)

(** Arguments of [listPages]: [{ path: { docId }, query: { limit, pageToken },
    throwOnError: true }]. *)
Record ListPagesOptions : Type := {
  lp_docId : string;
  lp_limit : option Z;
  lp_pageToken : option string
}.

(** Arguments of [createPage] as [coda_duplicate_page] builds them:
    [{ path: { docId }, body: { name, pageContent: { type: "canvas",
    canvasContent: { format: "markdown", content } } }, throwOnError: true }]. *)
Record CreatePageOptions : Type := {
  cp_docId : string;
  cp_name : string;
  cp_content : option string
}.

Record Cell : Type := { column : string; value : json }.

(** Arguments of [updateRow]: [{ path: { docId, tableIdOrName, rowIdOrName },
    body: { row: { cells } }, throwOnError: true }]. *)
Record UpdateRowOptions : Type := {
  ur_docId : string;
  ur_tableIdOrName : string;
  ur_rowIdOrName : string;
  ur_cells : list Cell
}.

(** One call to an imported function, as a test spy would record it. *)
Inductive Call : Type :=
| CallGetPageContent (docId pageIdOrName : string)
| CallListPages (options : ListPagesOptions)
| CallCreatePage (options : CreatePageOptions)
| CallUpdateRow (options : UpdateRowOptions).

(** An imported function answers in a state of the outside world: it moves the
    world and either rejects with a thrown value or resolves. *)
Definition Answer (world A : Type) : Type := world -> world * (thrown + A).

(** The imported functions.  [getPageContent] resolves to a [string], or to
    [undefined] ([None]); the SDK functions resolve to a response whose [data]
    is kept. *)
Record Upstream (world : Type) : Type := {
  on_getPageContent : string -> string -> Answer world (option string);
  on_listPages : ListPagesOptions -> Answer world json;
  on_createPage : CreatePageOptions -> Answer world json;
  on_updateRow : UpdateRowOptions -> Answer world json
}.
Arguments on_getPageContent {world}.
Arguments on_listPages {world}.
Arguments on_createPage {world}.
Arguments on_updateRow {world}.

(* ------------------------------------------------------------------------- *)
(** ** Asynchronous computations *)

(** The state a handler runs in: the outside world and the calls made so far,
    oldest first. *)
Record Session (world : Type) : Type := {
  now : world;
  calls : list Call
}.
Arguments now {world}.
Arguments calls {world}.

Definition Async (world A : Type) : Type :=
  Session world -> (thrown + A) * Session world.

Section Monad.
Context {world : Type}.

Definition ret {A : Type} (a : A) : Async world A :=
  fun s => (inr a, s).

Definition throw {A : Type} (e : thrown) : Async world A :=
  fun s => (inl e, s).

(** [const x = await m; k x] *)
Definition bind {A B : Type} (m : Async world A) (k : A -> Async world B)
  : Async world B :=
  fun s =>
    match m s with
    | (inl e, s') => (inl e, s')
    | (inr a, s') => k a s'
    end.

(** [try { body } catch (error) { handler error }] *)
Definition try_catch {A : Type} (body : Async world A)
    (handler : thrown -> Async world A) : Async world A :=
  fun s =>
    match body s with
    | (inl e, s') => handler e s'
    | (inr a, s') => (inr a, s')
    end.

(** [await f(args)] for an imported function [f]: the call is logged and the
    world moves. *)
Definition await_call {A : Type} (c : Call) (f : Answer world A)
  : Async world A :=
  fun s =>
    let (w', r) := f (now s) in
    (r, {| now := w'; calls := calls s ++ [c] |}).

(** [for (const x of xs) { body }] with the variables the body updates
    threaded as [acc]. *)
Fixpoint for_of {A S : Type} (xs : list A) (body : A -> S -> Async world S)
    (acc : S) : Async world S :=
  match xs with
  | [] => ret acc
  | x :: xs' => bind (body x acc) (for_of xs' body)
  end.

(** Running a computation from a world, with an empty call log. *)
Definition run {A : Type} (m : Async world A) (w : world)
  : (thrown + A) * Session world :=
  m {| now := w; calls := [] |}.

End Monad.

Declare Scope async_scope.
Delimit Scope async_scope with async.
Notation "x <- m ;; k" := (bind m (fun x => k))
  (at level 100, m at next level, right associativity) : async_scope.
Local Open Scope async_scope.

(* ------------------------------------------------------------------------- *)
(** ** Tool results *)

(** One row of the [results] array of [coda_bulk_update_rows]:
    [{ rowId, success: true, data }] or [{ rowId, success: false, error }]. *)
Record RowResult : Type := {
  rowId : string;
  success : bool;
  data : option json;
  error : option string
}.

(** The object [coda_bulk_update_rows] serializes. *)
Record BulkReport : Type := {
  results : list RowResult;
  totalUpdates : nat;
  successful : nat;
  failed : nat
}.

(** The [text] of a result: a string taken as it is, or
    [JSON.stringify(v, null, 2)] of a value, kept structured. *)
Inductive Text : Type :=
| Raw (s : string)
| StringifyData (v : json)
| StringifyReport (v : BulkReport).

(** [{ content: [{ type: "text", text }], isError }]; an absent [isError] is
    [false]. *)
Record CallToolResult : Type := {
  content : list Text;
  isError : bool
}.

(** [return { content: [{ type: "text", text }] }] *)
Definition ok (text : Text) : CallToolResult :=
  {| content := [text]; isError := false |}.

(** The error result of a tool: the label of the operation, [" : "], and the
    reason, flagged as an error. *)
Definition error_result (label reason : string) : CallToolResult :=
  {| content := [Raw (label ++ " : " ++ reason)]; isError := true |}.

(** The [catch] clause shared by the handlers:
    [return { content: [{ type: "text", text: `${label} : ${error instanceof
    Error ? error.message : String(error)}` }], isError: true }]. *)
Definition failed_with (label : string) (error : thrown) : CallToolResult :=
  error_result label (error_message error).

(* ------------------------------------------------------------------------- *)
(** ** The handlers *)

(** One element of the [updates] argument of [coda_bulk_update_rows].  The
    record [values] is kept as the list of its entries, in the order
    [Object.entries] enumerates them. *)
Record RowUpdate : Type := {
  rowIdOrName : string;
  values : list (string * json)
}.

Section Handlers.
Context {world : Type} (up : Upstream world).

(** The imported functions, as the handlers call them. *)
Definition getPageContent (docId pageIdOrName : string)
  : Async world (option string) :=
  await_call (CallGetPageContent docId pageIdOrName)
             (on_getPageContent up docId pageIdOrName).

Definition listPages (options : ListPagesOptions) : Async world json :=
  await_call (CallListPages options) (on_listPages up options).

Definition createPage (options : CreatePageOptions) : Async world json :=
  await_call (CallCreatePage options) (on_createPage up options).

Definition updateRow (options : UpdateRowOptions) : Async world json :=
  await_call (CallUpdateRow options) (on_updateRow up options).

(** *** [coda_list_pages] (server.ts, 145-164) *)

Definition coda_list_pages_body (docId : string) (limit : option Z)
    (nextPageToken : option string) : Async world CallToolResult :=
  let listLimit := if truthy nextPageToken then None else limit in
  resp <- listPages {| lp_docId := docId;
                       lp_limit := listLimit;
                       lp_pageToken := nullish nextPageToken None |} ;;
  ret (ok (StringifyData resp)).

Definition coda_list_pages (docId : string) (limit : option Z)
    (nextPageToken : option string) : Async world CallToolResult :=
  try_catch (coda_list_pages_body docId limit nextPageToken)
            (fun error => ret (failed_with "Failed to list pages" error)).

(** *** [coda_get_page_content] (server.ts, 231-243) *)

Definition coda_get_page_content_body (docId pageIdOrName : string)
  : Async world CallToolResult :=
  content <- getPageContent docId pageIdOrName ;;
  match content with
  | None => throw (ErrorObject "Unknown error has occurred")
  | Some text => ret (ok (Raw text))
  end.

Definition coda_get_page_content (docId pageIdOrName : string)
  : Async world CallToolResult :=
  try_catch (coda_get_page_content_body docId pageIdOrName)
            (fun error => ret (failed_with "Failed to get page content" error)).

(** *** [coda_peek_page] (server.ts, 258-275) *)

Definition coda_peek_page_body (docId pageIdOrName : string) (numLines : Z)
  : Async world CallToolResult :=
  content <- getPageContent docId pageIdOrName ;;
  if negb (truthy content) then
    throw (ErrorObject "Unknown error has occurred")
  else
    match content with
    | Some text =>
        let preview :=
          join (String LF "") (slice0 (split_line_breaks text) numLines) in
        ret (ok (Raw preview))
    | None =>
        (* not reached: [undefined] is falsy *)
        throw (ErrorObject "Unknown error has occurred")
    end.

Definition coda_peek_page (docId pageIdOrName : string) (numLines : Z)
  : Async world CallToolResult :=
  try_catch (coda_peek_page_body docId pageIdOrName numLines)
            (fun error => ret (failed_with "Failed to peek page" error)).

(** *** [coda_duplicate_page] (server.ts, 350-366) *)

Definition coda_duplicate_page_body (docId pageIdOrName newName : string)
  : Async world CallToolResult :=
  pageContent <- getPageContent docId pageIdOrName ;;
  createResp <- createPage {| cp_docId := docId;
                              cp_name := newName;
                              cp_content := pageContent |} ;;
  ret (ok (StringifyData createResp)).

Definition coda_duplicate_page (docId pageIdOrName newName : string)
  : Async world CallToolResult :=
  try_catch (coda_duplicate_page_body docId pageIdOrName newName)
            (fun error => ret (failed_with "Failed to duplicate page" error)).

(** *** [coda_bulk_update_rows] (server.ts, 963-1009) *)

(** [Object.entries(update.values).map(([column, value]) => ({ column,
    value }))] *)
Definition cells_of (update : RowUpdate) : list Cell :=
  map (fun entry => {| column := fst entry; value := snd entry |})
      (values update).

Definition update_request (docId tableIdOrName : string) (update : RowUpdate)
  : UpdateRowOptions :=
  {| ur_docId := docId;
     ur_tableIdOrName := tableIdOrName;
     ur_rowIdOrName := rowIdOrName update;
     ur_cells := cells_of update |}.

(** The body of the [for] loop: one [try]/[catch] around one [updateRow];
    [results] is the array the loop pushes to. *)
Definition bulk_step (docId tableIdOrName : string) (update : RowUpdate)
    (results : list RowResult) : Async world (list RowResult) :=
  try_catch
    (resp <- updateRow (update_request docId tableIdOrName update) ;;
     ret (results ++ [ {| rowId := rowIdOrName update;
                          success := true;
                          data := Some resp;
                          error := None |} ])%list)
    (fun error =>
       let errorMessage := error_message error in
       ret (results ++ [ {| rowId := rowIdOrName update;
                            success := false;
                            data := None;
                            error := Some errorMessage |} ])%list).

Definition coda_bulk_update_rows_body (docId tableIdOrName : string)
    (updates : list RowUpdate) : Async world CallToolResult :=
  results <- for_of updates (bulk_step docId tableIdOrName) [] ;;
  ret (ok (StringifyReport
             {| results := results;
                totalUpdates := List.length updates;
                successful := List.length (filter (fun r => success r) results);
                failed := List.length (filter (fun r => negb (success r)) results) |})).

Definition coda_bulk_update_rows (docId tableIdOrName : string)
    (updates : list RowUpdate) : Async world CallToolResult :=
  try_catch (coda_bulk_update_rows_body docId tableIdOrName updates)
            (fun error => ret (failed_with "Failed to bulk update rows" error)).

(** *** What the upstream answers to a batch

    The answers [updateRow] gives when the requests for [updates] are sent
    one after the other, each in the world the previous one left, and the
    world after the last. *)
Fixpoint answers (docId tableIdOrName : string) (updates : list RowUpdate)
    (w : world) : list (thrown + json) * world :=
  match updates with
  | [] => ([], w)
  | update :: updates' =>
      let (w', answer) :=
        on_updateRow up (update_request docId tableIdOrName update) w in
      let (rest, w'') := answers docId tableIdOrName updates' w' in
      (answer :: rest, w'')
  end.

End Handlers.

(** The row of the report that belongs to one update and the answer it got. *)
Definition outcome (update : RowUpdate) (answer : thrown + json) : RowResult :=
  match answer with
  | inr resp => {| rowId := rowIdOrName update;
                   success := true;
                   data := Some resp;
                   error := None |}
  | inl e => {| rowId := rowIdOrName update;
                success := false;
                data := None;
                error := Some (error_message e) |}
  end.

(** The rows of a report: one per update, from the answer that update got. *)
Definition outcomes (updates : list RowUpdate) (ans : list (thrown + json))
  : list RowResult :=
  map (fun ua => outcome (fst ua) (snd ua)) (combine updates ans).

(* ------------------------------------------------------------------------- *)
(** ** The export job behind [getPageContent] *)

Module ExportPoll.

(** Modelled from the spec: [./client/helpers], which defines
    [getPageContent], is not among the sources; only its callers and its
    mocks are.  This module follows the Export-Poll Resolver of the
    specification (component design 4.1, external interfaces 6): submit an
    export, poll its status until it is Complete or Failed or the wait
    budget is spent, download on Complete.  Time is not modelled: the wait
    budget is a number of polls. *)
Inductive Status : Type := Pending | Complete | Failed.

(** Modelled from the spec: the answer of [getExportStatus],
    [{status, downloadRef?, error?}]. *)
Record ExportJob : Type := {
  job_status : Status;
  job_downloadRef : option string;
  job_error : option string
}.

(** Modelled from the spec: the three calls consumed from the API client.
    [getExportStatus] may answer without a job handle ([None]). *)
Record ExportApi (world : Type) : Type := {
  submitExport : string -> string -> string -> Answer world (string * Status);
  getExportStatus : string -> string -> Answer world (option ExportJob);
  fetchDownload : string -> Answer world string
}.
Arguments submitExport {world}.
Arguments getExportStatus {world}.
Arguments fetchDownload {world}.

(** Modelled from the spec: the failures of the resolver.  The specification
    names them and fixes no message, except that UpstreamExportError carries
    the reason the job reports. *)
Definition TimeoutError : thrown :=
  ErrorObject "Timed out waiting for the export".
Definition MalformedJob : thrown :=
  ErrorObject "The export returned no usable result".
Definition UpstreamExportError (job : ExportJob) : thrown :=
  ErrorObject match job_error job with
              | Some reason => reason
              | None => "The export failed"
              end.

Section Resolver.
Context {world : Type} (api : ExportApi world).

(** Modelled from the spec: steps 2 to 4, with [budget] polls left.  A
    failure of the API client propagates unmodified. *)
Fixpoint poll (budget : nat) (docId exportId : string) (w : world)
  : world * (thrown + string) :=
  match budget with
  | O => (w, inl TimeoutError)
  | S budget' =>
      match getExportStatus api docId exportId w with
      | (w', inl e) => (w', inl e)
      | (w', inr None) => (w', inl MalformedJob)
      | (w', inr (Some job)) =>
          match job_status job with
          | Pending => poll budget' docId exportId w'
          | Failed => (w', inl (UpstreamExportError job))
          | Complete =>
              match job_downloadRef job with
              | None => (w', inl MalformedJob)
              | Some ref => fetchDownload api ref w'
              end
          end
      end
  end.

(** Modelled from the spec: [resolveContent(docId, pageId) -> text], step 1
    followed by the polling; the resolved text is never [undefined]. *)
Definition resolveContent (budget : nat) (docId pageId : string)
  : Answer world (option string) :=
  fun w =>
    match submitExport api docId pageId "markdown" w with
    | (w1, inl e) => (w1, inl e)
    | (w1, inr (exportId, _)) =>
        match poll budget docId exportId w1 with
        | (w2, inl e) => (w2, inl e)
        | (w2, inr text) => (w2, inr (Some text))
        end
    end.

(** Modelled from the spec: "the job reports" a terminal status.  The job
    answers [job], not Pending, within [budget] polls, and Pending to the
    polls before. *)
Inductive settles (docId exportId : string)
  : nat -> world -> ExportJob -> world -> Prop :=
| settles_now budget w w' job :
    getExportStatus api docId exportId w = (w', inr (Some job)) ->
    job_status job <> Pending ->
    settles docId exportId (S budget) w job w'
| settles_later budget w w' waiting job w'' :
    getExportStatus api docId exportId w = (w', inr (Some waiting)) ->
    job_status waiting = Pending ->
    settles docId exportId budget w' job w'' ->
    settles docId exportId (S budget) w job w''.

(** The imported functions, with [getPageContent] backed by the resolver. *)
Definition upstream (budget : nat) (sdk : Upstream world) : Upstream world :=
  {| on_getPageContent := resolveContent budget;
     on_listPages := on_listPages sdk;
     on_createPage := on_createPage sdk;
     on_updateRow := on_updateRow sdk |}.

End Resolver.

End ExportPoll.

(* ------------------------------------------------------------------------- *)
(** ** Mocks *)

(** Concrete imported functions in the style of the test-suite: the world is
    the number of calls answered so far. *)
Module Mock.

Definition resolved {A : Type} (a : A) : Answer nat A :=
  fun n => (S n, inr a).

Definition rejected {A : Type} (e : thrown) : Answer nat A :=
  fun n => (S n, inl e).

Definition page_new : json :=
  JObject [("id", JString "page-duplicate"); ("requestId", JString "req-127")].

Definition row_data (row : string) : json :=
  JObject [("id", JString row)].

(** [getPageContent] answers [content]; [createPage] and [listPages] resolve;
    [updateRow] rejects for the row named ["B"] and resolves otherwise. *)
Definition upstream (content : thrown + option string) : Upstream nat :=
  {| on_getPageContent := fun _ _ n => (S n, content);
     on_listPages := fun _ => resolved (JObject [("items", JArray [])]);
     on_createPage := fun _ => resolved page_new;
     on_updateRow := fun options =>
       if String.eqb (ur_rowIdOrName options) "B"
       then rejected (ErrorObject "Row not found")
       else resolved (row_data (ur_rowIdOrName options)) |}.

Definition failed_job : ExportPoll.ExportJob :=
  {| ExportPoll.job_status := ExportPoll.Failed;
     ExportPoll.job_downloadRef := None;
     ExportPoll.job_error := Some "conversion error" |}.

(** An export whose status is Pending for [pending] polls and [job]
    afterwards; the download holds [text].  Submitting resets the world, which
    then counts the polls and the download. *)
Definition export (pending : nat) (job : ExportPoll.ExportJob) (text : string)
  : ExportPoll.ExportApi nat :=
  {| ExportPoll.submitExport := fun _ _ _ _ => (O, inr ("export-1", ExportPoll.Pending));
     ExportPoll.getExportStatus := fun _ _ n =>
       (S n, inr (Some (if Nat.ltb n pending
                        then {| ExportPoll.job_status := ExportPoll.Pending;
                                ExportPoll.job_downloadRef := None;
                                ExportPoll.job_error := None |}
                        else job)));
     ExportPoll.fetchDownload := fun _ => resolved text |}.

End Mock.

(* ------------------------------------------------------------------------- *)
(** ** Lines of a text

    What "the lines of a text" means, stated without the splitting function:
    a text is a sequence of lines, each followed by a line break, and a last
    line that no line break follows. *)

Definition line_feed : string := String LF "".
Definition cr_line_feed : string := String CR (String LF "").

Fixpoint contains (c : ascii) (s : string) : bool :=
  match s with
  | EmptyString => false
  | String a rest => Ascii.eqb a c || contains c rest
  end.

Fixpoint ends_with (c : ascii) (s : string) : bool :=
  match s with
  | EmptyString => false
  | String a EmptyString => Ascii.eqb a c
  | String _ rest => ends_with c rest
  end.

(** A line together with the line break that ends it. *)
Definition Chunk : Type := (string * string)%type.

(** A line holds no line feed; its line break is a line feed, alone or after
    a carriage return; and a carriage return directly before the line feed
    belongs to the line break, not to the line. *)
Definition well_cut (chunk : Chunk) : Prop :=
  contains LF (fst chunk) = false
  /\ (snd chunk = cr_line_feed
      \/ (snd chunk = line_feed /\ ends_with CR (fst chunk) = false)).

(** The text made of the chunks and the last line: every character of the
    text is in exactly one line or line break. *)
Definition text_of (chunks : list Chunk) (last : string) : string :=
  fold_right (fun chunk text => fst chunk ++ snd chunk ++ text) last chunks.

Definition lines_of (chunks : list Chunk) (last : string) : list string :=
  (map fst chunks ++ [last])%list.

(** The same lines, each ended by [sep] instead of its own line break. *)
Definition normalized (sep : string) (chunks : list Chunk) : list Chunk :=
  map (fun chunk => (fst chunk, sep)) chunks.

(* ------------------------------------------------------------------------- *)
(** ** Configuration ([src/config.ts]) *)

Record Config : Type := { apiKey : string }.

(** [process.env]: a variable is set to a string, or is not set. *)
Definition Env : Type := string -> option string.

(** [getConfig] (config.ts, 5-15): returns the configuration or throws. *)
Definition getConfig (env : Env) : thrown + Config :=
  let key := env "API_KEY" in
  let missing :=
    ErrorObject "The API_KEY environment variable is required to start the Coda MCP server. Please set API_KEY to your Coda API token." in
  if negb (truthy key) then inl missing
  else
    match key with
    | Some apiKey => inr {| apiKey := apiKey |}
    | None => inl missing   (* not reached: [undefined] is falsy *)
    end.

(* ------------------------------------------------------------------------- *)
(** ** Updating one row ([coda_update_row], server.ts, 645-664) *)

Section UpdateRow.
Context {world : Type} (up : Upstream world).

Definition coda_update_row_body (docId tableIdOrName rowIdOrName : string)
    (values : list (string * json)) : Async world CallToolResult :=
  let cells :=
    map (fun entry => {| column := fst entry; value := snd entry |}) values in
  resp <- updateRow up {| ur_docId := docId;
                          ur_tableIdOrName := tableIdOrName;
                          ur_rowIdOrName := rowIdOrName;
                          ur_cells := cells |} ;;
  ret (ok (StringifyData resp)).

Definition coda_update_row (docId tableIdOrName rowIdOrName : string)
    (values : list (string * json)) : Async world CallToolResult :=
  try_catch (coda_update_row_body docId tableIdOrName rowIdOrName values)
            (fun error => ret (failed_with "Failed to update row" error)).

(** A client that updates the rows one call of the tool after the other and
    collects the results. *)
Definition update_one_by_one (docId tableIdOrName : string)
    (updates : list RowUpdate) : Async world (list CallToolResult) :=
  for_of updates
         (fun update collected =>
            result <- coda_update_row docId tableIdOrName
                                      (rowIdOrName update) (values update) ;;
            ret (collected ++ [result])%list)
         [].

End UpdateRow.

(* ------------------------------------------------------------------------- *)
(** ** Searching pages ([coda_search_pages], server.ts, 899-945) *)

(** [obj[key]] for the fields of an object parsed from JSON, whose keys are
    distinct. *)
Fixpoint lookup (key : string) (fields : list (string * json)) : option json :=
  match fields with
  | [] => None
  | (k, v) :: rest => if String.eqb k key then Some v else lookup key rest
  end.

(** [{ ...obj, [key]: v }]: the value of an existing key is replaced where it
    stands, a new key comes last. *)
Fixpoint set_field (key : string) (v : json) (fields : list (string * json))
  : list (string * json) :=
  match fields with
  | [] => [(key, v)]
  | (k, old) :: rest =>
      if String.eqb k key then (k, v) :: rest
      else (k, old) :: set_field key v rest
  end.

(** [s.startsWith(t)] *)
Fixpoint starts_with (s t : string) : bool :=
  match t, s with
  | EmptyString, _ => true
  | String b t', String a s' => Ascii.eqb a b && starts_with s' t'
  | String _ _, EmptyString => false
  end.

(** [s.includes(t)]: [t] occurs in [s] at some position. *)
Fixpoint includes (s t : string) : bool :=
  starts_with s t
  || match s with
     | EmptyString => false
     | String _ rest => includes rest t
     end.

(** One item of the page list, with the two properties the handler reads. *)
Record Page : Type := {
  page_fields : list (string * json);
  page_id : string;
  page_name : string
}.

Definition as_page (item : json) : option Page :=
  match item with
  | JObject fields =>
      match lookup "id" fields, lookup "name" fields with
      | Some (JString id), Some (JString name) =>
          Some {| page_fields := fields; page_id := id; page_name := name |}
      | _, _ => None
      end
  | _ => None
  end.

Fixpoint as_pages (items : list json) : option (list Page) :=
  match items with
  | [] => Some []
  | item :: rest =>
      match as_page item, as_pages rest with
      | Some page, Some pages => Some (page :: pages)
      | _, _ => None
      end
  end.

(** The name of a listed item: [item.name], when the item is an object whose
    [name] is a string. *)
Definition name_of (item : json) : option string :=
  match item with
  | JObject fields =>
      match lookup "name" fields with
      | Some (JString name) => Some name
      | _ => None
      end
  | _ => None
  end.

Fixpoint with_names (items : list json) : option (list (json * string)) :=
  match items with
  | [] => Some []
  | item :: rest =>
      match name_of item, with_names rest with
      | Some name, Some named => Some ((item, name) :: named)
      | _, _ => None
      end
  end.

(** [pagesResp.data.items], each item with its name.  The handler reads
    [data.items], calls [filter] on it and [toLowerCase] on the [name] of
    every item before anything else; these throw a TypeError unless [data] is
    an object, [items] an array and every item an object with a string
    [name], and only then. *)
Definition named_items (data : json) : option (list (json * string)) :=
  match data with
  | JObject fields =>
      match lookup "items" fields with
      | Some (JArray items) => with_names items
      | _ => None
      end
  | _ => None
  end.

(** [pagesResp.data.items] read as the list of pages the SDK declares: an
    array of objects with a string [id] and a string [name].  The search by
    content hands [page.id] to [getPageContent], whose parameter is a string,
    and compares ids with [===]; it is embedded for pages read this way. *)
Definition page_list (data : json) : option (list Page) :=
  match data with
  | JObject fields =>
      match lookup "items" fields with
      | Some (JArray items) => as_pages items
      | _ => None
      end
  | _ => None
  end.

(** The object of a page as it is, and as [{ ...page, matchedInContent: true
    }]. *)
Definition page_json (page : Page) : json := JObject (page_fields page).

Definition matched_in_content (page : Page) : json :=
  JObject (set_field "matchedInContent" (JBool true) (page_fields page)).

Section SearchPages.
Context {world : Type} (up : Upstream world).

(** [String.prototype.toLowerCase], whose case mapping is that of the engine,
    and the TypeError the engine throws when reading the names of the data
    fails, whose message is the engine's. *)
Variable toLowerCase : string -> string.
Variable type_error : json -> thrown.

(** [name.toLowerCase().includes(query.toLowerCase())] *)
Definition matches (query text : string) : bool :=
  includes (toLowerCase text) (toLowerCase query).

(** [filteredPages.some(p => p.id === page.id)] *)
Definition listed (filteredPages : list Page) (page : Page) : bool :=
  existsb (fun p => String.eqb (page_id p) (page_id page)) filteredPages.

(** [content && content.toLowerCase().includes(query.toLowerCase())] *)
Definition content_matches (query : string) (content : option string) : bool :=
  match content with
  | Some text => truthy content && matches query text
  | None => false
  end.

(** The body of the loop over the pages: the [try] around one
    [getPageContent], and the [catch] that goes on to the next page (what it
    writes with [console.error] is not kept).  [contentMatches] is the array
    the loop pushes to. *)
Definition search_step (docId query : string) (filteredPages : list Page)
    (page : Page) (contentMatches : list json) : Async world (list json) :=
  try_catch
    (content <- getPageContent up docId (page_id page) ;;
     if content_matches query content then
       if negb (listed filteredPages page) then
         ret (contentMatches ++ [matched_in_content page])%list
       else ret contentMatches
     else ret contentMatches)
    (fun error => ret contentMatches).

(** [listPages({ path: { docId }, throwOnError: true })]: no query, kept as a
    query with nothing set.  The filter by name runs first and reads no id.
    Where the content is searched, the pages are read with their ids; a list
    whose names are strings and one of whose ids is not a string, searched by
    content, is outside the embedding (the last [throw] stands there). *)
Definition coda_search_pages_body (docId query : string)
    (includeContent_arg : option bool) : Async world CallToolResult :=
  let includeContent :=
    match includeContent_arg with Some b => b | None => false end in
  pagesResp <- listPages up {| lp_docId := docId;
                               lp_limit := None;
                               lp_pageToken := None |} ;;
  match named_items pagesResp with
  | None => throw (type_error pagesResp)
  | Some items =>
      found <- (if includeContent then
                  match page_list pagesResp with
                  | Some pages =>
                      let filteredPages :=
                        filter (fun page => matches query (page_name page))
                               pages in
                      contentMatches <-
                        for_of pages (search_step docId query filteredPages) [] ;;
                      ret (map page_json filteredPages ++ contentMatches)%list
                  | None => throw (type_error pagesResp)
                  end
                else
                  let filteredPages :=
                    filter (fun item => matches query (snd item)) items in
                  ret (map fst filteredPages)) ;;
      ret (ok (StringifyData
                 (JObject [("items", JArray found);
                           ("searchQuery", JString query);
                           ("searchedContent", JBool includeContent);
                           ("totalFound", JNumber (Z.of_nat (List.length found)))])))
  end.

Definition coda_search_pages (docId query : string)
    (includeContent_arg : option bool) : Async world CallToolResult :=
  try_catch (coda_search_pages_body docId query includeContent_arg)
            (fun error => ret (failed_with "Failed to search pages" error)).

(** The answers [getPageContent] gives when it is asked for the pages one
    after the other, and the world after the last. *)
Fixpoint contents (docId : string) (pages : list Page) (w : world)
  : list (thrown + option string) * world :=
  match pages with
  | [] => ([], w)
  | page :: pages' =>
      let (w', answer) := on_getPageContent up docId (page_id page) w in
      let (rest, w'') := contents docId pages' w' in
      (answer :: rest, w'')
  end.

(** Whether a page is found by its content alone: its content was fetched,
    is not empty and matches, and no page found by name has its id. *)
Definition found_by_content (query : string) (filteredPages : list Page)
    (page : Page) (answer : thrown + option string) : bool :=
  match answer with
  | inr content =>
      content_matches query content && negb (listed filteredPages page)
  | inl _ => false
  end.

(** The pages found by content alone, among pages and the answers they got. *)
Fixpoint content_only (query : string) (filteredPages pages : list Page)
    (ans : list (thrown + option string)) : list Page :=
  match pages, ans with
  | page :: pages', answer :: ans' =>
      if found_by_content query filteredPages page answer
      then page :: content_only query filteredPages pages' ans'
      else content_only query filteredPages pages' ans'
  | _, _ => []
  end.

End SearchPages.

(** Mocks for the search: [listPages] resolves to [data], and
    [getPageContent] answers by page id. *)
Module MockSearch.

Definition upstream (data : json) (content_of : string -> thrown + option string)
  : Upstream nat :=
  {| on_getPageContent := fun _ pageIdOrName n => (S n, content_of pageIdOrName);
     on_listPages := fun _ => Mock.resolved data;
     on_createPage := fun _ => Mock.resolved Mock.page_new;
     on_updateRow := fun options =>
       Mock.resolved (Mock.row_data (ur_rowIdOrName options)) |}.

(** A document whose pages cannot be listed. *)
Definition denied : Upstream nat :=
  {| on_getPageContent := fun _ _ n => (S n, inr (Some "text"));
     on_listPages := fun _ => Mock.rejected (ErrorObject "Access denied");
     on_createPage := fun _ => Mock.resolved Mock.page_new;
     on_updateRow := fun options =>
       Mock.resolved (Mock.row_data (ur_rowIdOrName options)) |}.

(** Lower case for the letters A to Z, every other character kept. *)
Definition lower_char (c : ascii) : ascii :=
  let n := nat_of_ascii c in
  if (65 <=? n)%nat && (n <=? 90)%nat then ascii_of_nat (n + 32) else c.

Fixpoint lower (s : string) : string :=
  match s with
  | EmptyString => EmptyString
  | String c rest => String (lower_char c) (lower rest)
  end.

(** The TypeError of V8 for the two kinds of data used here: data without
    [items], where [data.items.filter] fails, and a list with an item without
    [name], where [page.name.toLowerCase] fails. *)
Definition type_error (data : json) : thrown :=
  match data with
  | JObject fields =>
      match lookup "items" fields with
      | Some (JArray _) =>
          ErrorObject "Cannot read properties of undefined (reading 'toLowerCase')"
      | _ => ErrorObject "Cannot read properties of undefined (reading 'filter')"
      end
  | _ => ErrorObject "Cannot read properties of undefined (reading 'filter')"
  end.

Definition page (id name : string) : json :=
  JObject [("id", JString id); ("name", JString name)].

(** Three pages; the content of the first mentions the budget, the second
    cannot be fetched, the third is empty. *)
Definition pages : json :=
  JObject [("items", JArray [page "p1" "Roadmap";
                             page "p2" "Budget 2024";
                             page "p3" "Notes"])].

(** The same three pages, read. *)
Definition listed_page (id name : string) : Page :=
  {| page_fields := [("id", JString id); ("name", JString name)];
     page_id := id;
     page_name := name |}.

Definition listed_pages : list Page :=
  [listed_page "p1" "Roadmap"; listed_page "p2" "Budget 2024";
   listed_page "p3" "Notes"].

Definition content_of (id : string) : thrown + option string :=
  if String.eqb id "p1" then inr (Some "Plan and BUDGET")
  else if String.eqb id "p2" then inl (ErrorObject "Export failed")
  else inr (Some "").

End MockSearch.

(* ------------------------------------------------------------------------- *)
(** ** Notions used to state further properties *)

(** How many times a character occurs in a text. *)
Fixpoint occurrences (c : ascii) (s : string) : nat :=
  match s with
  | EmptyString => 0
  | String a rest => (if Ascii.eqb a c then 1 else 0) + occurrences c rest
  end.

(** A row of the bulk report and the result of [coda_update_row] tell the
    same story: both a success with the same data, or both a failure with
    the same message. *)
Definition agrees (row : RowResult) (result : CallToolResult) : Prop :=
  (success row = true
   /\ exists resp, data row = Some resp /\ result = ok (StringifyData resp))
  \/ (success row = false
      /\ exists message,
           error row = Some message
           /\ result = error_result "Failed to update row" message).

(** The result of [coda_update_row] for the answer its request got. *)
Definition update_result (answer : thrown + json) : CallToolResult :=
  match answer with
  | inl e => error_result "Failed to update row" (error_message e)
  | inr resp => ok (StringifyData resp)
  end.

(** [item.id] of an item of the report. *)
Definition reported_id (item : json) : option json :=
  match item with
  | JObject fields => lookup "id" fields
  | _ => None
  end.

(** The object [coda_search_pages] serializes. *)
Definition search_report (found : list json) (query : string)
    (searchedContent : bool) : json :=
  JObject [("items", JArray found);
           ("searchQuery", JString query);
           ("searchedContent", JBool searchedContent);
           ("totalFound", JNumber (Z.of_nat (List.length found)))].

(* ------------------------------------------------------------------------- *)
(** ** What one run of a handler does *)

Ltac run_handler :=
  cbv beta iota delta [run try_catch bind ret throw await_call
                       getPageContent listPages createPage updateRow];
  simpl.

Section Runs.
Context {world : Type} (up : Upstream world).

Lemma run_list_pages docId limit nextPageToken w :
  run (coda_list_pages up docId limit nextPageToken) w =
    let options := {| lp_docId := docId;
                      lp_limit := if truthy nextPageToken then None else limit;
                      lp_pageToken := nextPageToken |} in
    let (w', answer) := on_listPages up options w in
    (inr match answer with
         | inl e => error_result "Failed to list pages" (error_message e)
         | inr resp => ok (StringifyData resp)
         end,
     {| now := w'; calls := [CallListPages options] |}).
Proof.
  unfold coda_list_pages, coda_list_pages_body. run_handler.
  replace (nullish nextPageToken None) with nextPageToken
    by (destruct nextPageToken; reflexivity).
  destruct (on_listPages up _ w) as [w' [e | resp]]; reflexivity.
Qed.

Lemma run_get_page_content docId pageIdOrName w :
  run (coda_get_page_content up docId pageIdOrName) w =
    let (w', answer) := on_getPageContent up docId pageIdOrName w in
    (inr match answer with
         | inl e =>
             error_result "Failed to get page content" (error_message e)
         | inr None =>
             error_result "Failed to get page content"
                          "Unknown error has occurred"
         | inr (Some text) => ok (Raw text)
         end,
     {| now := w'; calls := [CallGetPageContent docId pageIdOrName] |}).
Proof.
  unfold coda_get_page_content, coda_get_page_content_body. run_handler.
  destruct (on_getPageContent up _ _ w) as [w' [e | [text | ]]]; reflexivity.
Qed.

Lemma run_peek_page docId pageIdOrName numLines w :
  run (coda_peek_page up docId pageIdOrName numLines) w =
    let (w', answer) := on_getPageContent up docId pageIdOrName w in
    (inr match answer with
         | inl e => error_result "Failed to peek page" (error_message e)
         | inr None | inr (Some EmptyString) =>
             error_result "Failed to peek page" "Unknown error has occurred"
         | inr (Some text) =>
             ok (Raw (join (String LF "")
                           (slice0 (split_line_breaks text) numLines)))
         end,
     {| now := w'; calls := [CallGetPageContent docId pageIdOrName] |}).
Proof.
  unfold coda_peek_page, coda_peek_page_body. run_handler.
  destruct (on_getPageContent up _ _ w) as [w' [e | [[ | c text] | ]]];
    reflexivity.
Qed.

Lemma run_duplicate_page docId pageIdOrName newName w :
  run (coda_duplicate_page up docId pageIdOrName newName) w =
    let (w1, read) := on_getPageContent up docId pageIdOrName w in
    match read with
    | inl e =>
        (inr (error_result "Failed to duplicate page" (error_message e)),
         {| now := w1; calls := [CallGetPageContent docId pageIdOrName] |})
    | inr pageContent =>
        let options := {| cp_docId := docId;
                          cp_name := newName;
                          cp_content := pageContent |} in
        let (w2, created) := on_createPage up options w1 in
        (inr match created with
             | inl e =>
                 error_result "Failed to duplicate page" (error_message e)
             | inr resp => ok (StringifyData resp)
             end,
         {| now := w2;
            calls := [CallGetPageContent docId pageIdOrName;
                      CallCreatePage options] |})
    end.
Proof.
  unfold coda_duplicate_page, coda_duplicate_page_body. run_handler.
  destruct (on_getPageContent up _ _ w) as [w1 [e | pageContent]];
    [reflexivity | ].
  simpl. destruct (on_createPage up _ w1) as [w2 [e | resp]]; reflexivity.
Qed.

End Runs.

Section BulkRuns.
Context {world : Type} (up : Upstream world).
Variables docId tableIdOrName : string.

#[local] Abbreviation request := (update_request docId tableIdOrName).

Lemma answers_length updates w :
  List.length (fst (answers up docId tableIdOrName updates w))
  = List.length updates.
Proof.
  revert w; induction updates as [ | update updates IH]; intros w; simpl.
  - reflexivity.
  - destruct (on_updateRow up _ w) as [w' answer].
    specialize (IH w').
    destruct (answers up docId tableIdOrName updates w') as [rest w''].
    simpl in *. now rewrite IH.
Qed.

Lemma bulk_step_run update acc s :
  bulk_step up docId tableIdOrName update acc s =
    let (w', answer) := on_updateRow up (request update) (now s) in
    (inr (acc ++ [outcome update answer])%list,
     {| now := w'; calls := calls s ++ [CallUpdateRow (request update)] |}).
Proof.
  unfold bulk_step. run_handler.
  destruct (on_updateRow up _ (now s)) as [w' [e | resp]]; reflexivity.
Qed.

(** The loop never throws: it visits the updates in order, sends one request
    for each, and appends one row for each. *)
Lemma bulk_loop_run updates : forall acc s,
  for_of updates (bulk_step up docId tableIdOrName) acc s =
    let (ans, w') := answers up docId tableIdOrName updates (now s) in
    (inr (acc ++ outcomes updates ans)%list,
     {| now := w';
        calls := calls s ++ map (fun u => CallUpdateRow (request u)) updates |}).
Proof.
  induction updates as [ | update updates IH]; intros acc s.
  - simpl. unfold ret, outcomes. simpl. rewrite !app_nil_r.
    destruct s; reflexivity.
  - cbn [for_of answers]. unfold bind at 1. rewrite bulk_step_run.
    fold request.
    destruct (on_updateRow up (request update) (now s)) as [w' answer].
    rewrite IH. cbn [now calls].
    destruct (answers up docId tableIdOrName updates w') as [rest w''].
    unfold outcomes. cbn [combine map fst snd].
    rewrite <- !app_assoc. reflexivity.
Qed.

Lemma run_bulk_update_rows updates w :
  run (coda_bulk_update_rows up docId tableIdOrName updates) w =
    let (ans, w') := answers up docId tableIdOrName updates w in
    let results := outcomes updates ans in
    (inr (ok (StringifyReport
                {| results := results;
                   totalUpdates := List.length updates;
                   successful :=
                     List.length (filter (fun r => success r) results);
                   failed :=
                     List.length (filter (fun r => negb (success r)) results)
                |})),
     {| now := w';
        calls := map (fun u => CallUpdateRow (request u)) updates |}).
Proof.
  unfold coda_bulk_update_rows, coda_bulk_update_rows_body, run.
  unfold try_catch, bind. rewrite bulk_loop_run. cbn [now calls].
  destruct (answers up docId tableIdOrName updates w) as [ans w'].
  reflexivity.
Qed.

End BulkRuns.

Lemma outcomes_length updates ans :
  List.length ans = List.length updates ->
  List.length (outcomes updates ans) = List.length updates.
Proof.
  intros H. unfold outcomes.
  rewrite length_map, length_combine, H. apply Nat.min_id.
Qed.

Lemma filter_split_length {A : Type} (keep : A -> bool) (xs : list A) :
  List.length (filter keep xs) + List.length (filter (fun x => negb (keep x)) xs)
  = List.length xs.
Proof.
  induction xs as [ | x xs IH]; simpl; [reflexivity | ].
  destruct (keep x); simpl; lia.
Qed.

Section ExportRuns.
Context {world : Type} (api : ExportPoll.ExportApi world).
Import ExportPoll.

Lemma poll_failed docId exportId budget w job w' :
  settles api docId exportId budget w job w' ->
  job_status job = Failed ->
  poll api budget docId exportId w = (w', inl (UpstreamExportError job)).
Proof.
  intros Hsettles Hfailed.
  induction Hsettles as [budget w w' job Hstatus Hterminal
                        | budget w w' waiting job w'' Hstatus Hpending _ IH];
    simpl; rewrite Hstatus.
  - now rewrite Hfailed.
  - rewrite Hpending. now apply IH.
Qed.

Lemma poll_complete docId exportId budget w job w' ref :
  settles api docId exportId budget w job w' ->
  job_status job = Complete ->
  job_downloadRef job = Some ref ->
  poll api budget docId exportId w = fetchDownload api ref w'.
Proof.
  intros Hsettles Hcomplete Href.
  induction Hsettles as [budget w w' job Hstatus Hterminal
                        | budget w w' waiting job w'' Hstatus Hpending _ IH];
    simpl; rewrite Hstatus.
  - now rewrite Hcomplete, Href.
  - rewrite Hpending. now apply IH.
Qed.

End ExportRuns.

(* ------------------------------------------------------------------------- *)
(** ** Pagination cursor ([coda_list_pages]) *)

(** A continuation token that is absent, or present and not empty, decides the
    query as the precedence rule says: with a token the limit is left out and
    the token is forwarded, without one the limit is forwarded alone. *)
Lemma list_pages_cursor_precedence :
  forall (world : Type) (up : Upstream world) (w : world)
         (docId : string) (limit : option Z) (nextPageToken : option string),
    nextPageToken <> Some "" ->
    calls (snd (run (coda_list_pages up docId limit nextPageToken) w)) =
      [CallListPages
         {| lp_docId := docId;
            lp_limit := match nextPageToken with
                        | Some _ => None
                        | None => limit
                        end;
            lp_pageToken := nextPageToken |}].
Proof.
  intros world up w docId limit nextPageToken Hnonempty.
  rewrite run_list_pages. cbv zeta.
  destruct (on_listPages up _ w) as [w' answer]. cbn [snd calls].
  destruct nextPageToken as [[ | c token] | ]; try reflexivity.
  now elim Hnonempty.
Qed.

(** C3 (resolveListParams, cursor precedence): the rule says that a present
    cursor token unsets the limit and an absent one leaves the cursor unset.
    With the limit 10 and the empty string as token the handler does neither:
    the one call to [listPages] carries the limit 10 and the page token [""]. *)
Theorem list_pages_empty_token_keeps_limit :
  forall (world : Type) (up : Upstream world) (w : world),
    exists options,
      calls (snd (run (coda_list_pages up "doc-123" (Some 10%Z) (Some "")) w))
      = [CallListPages options]
      /\ lp_limit options = Some 10%Z
      /\ lp_pageToken options = Some ""
      /\ lp_limit options <> None
      /\ lp_pageToken options <> None.
Proof.
  intros world up w. rewrite run_list_pages. cbv zeta.
  destruct (on_listPages up _ w) as [w' answer]. cbn [snd calls].
  eexists; split; [reflexivity | ]. cbn.
  repeat split; discriminate.
Qed.

(** C9 (empty cursor token): the empty string is falsy, so the test
    [nextPageToken ? undefined : limit] keeps the supplied limit, and it is not
    nullish, so [nextPageToken ?? undefined] forwards it: for every supplied
    limit the one call to [listPages] carries both that limit and the page
    token [""]. *)
Theorem list_pages_empty_token_sends_both :
  forall (world : Type) (up : Upstream world) (w : world)
         (docId : string) (limit : option Z),
    truthy (Some "") = false
    /\ nullish (Some "") None = Some ""
    /\ calls (snd (run (coda_list_pages up docId limit (Some "")) w)) =
         [CallListPages {| lp_docId := docId;
                           lp_limit := limit;
                           lp_pageToken := Some "" |}].
Proof.
  intros world up w docId limit. repeat split.
  rewrite run_list_pages. cbv zeta.
  destruct (on_listPages up _ w) as [w' answer]. reflexivity.
Qed.

(* ------------------------------------------------------------------------- *)
(** ** Duplicating a page ([coda_duplicate_page]) *)

(** C6 (duplicate page, failing read): when [getPageContent] rejects, the run
    ends with the error result that carries the message of that rejection,
    the world is the one the read left, and the only call made is the read:
    [createPage] is not called. *)
Theorem duplicate_page_read_failure :
  forall (world : Type) (up : Upstream world) (w w' : world)
         (docId pageIdOrName newName : string) (e : thrown),
    on_getPageContent up docId pageIdOrName w = (w', inl e) ->
    run (coda_duplicate_page up docId pageIdOrName newName) w =
      (inr {| content := [Raw ("Failed to duplicate page : " ++ error_message e)];
              isError := true |},
       {| now := w'; calls := [CallGetPageContent docId pageIdOrName] |})
    /\ forall options,
         ~ In (CallCreatePage options)
              (calls (snd (run (coda_duplicate_page up docId pageIdOrName newName) w))).
Proof.
  intros world up w w' docId pageIdOrName newName e Hread.
  rewrite run_duplicate_page, Hread. split; [reflexivity | ].
  intros options [Hin | []]. discriminate Hin.
Qed.

Lemma duplicate_page_read_failure_witness :
  on_getPageContent (Mock.upstream (inl (ErrorObject "Content fetch failed")))
                    "doc-123" "page-456" 0
  = (1, inl (ErrorObject "Content fetch failed"))
  /\ run (coda_duplicate_page
            (Mock.upstream (inl (ErrorObject "Content fetch failed")))
            "doc-123" "page-456" "Duplicated Page") 0
     = (inr {| content := [Raw "Failed to duplicate page : Content fetch failed"];
               isError := true |},
        {| now := 1; calls := [CallGetPageContent "doc-123" "page-456"] |}).
Proof.
  split; [reflexivity | ].
  exact (proj1 (duplicate_page_read_failure
                  nat (Mock.upstream (inl (ErrorObject "Content fetch failed")))
                  0 1 "doc-123" "page-456" "Duplicated Page"
                  (ErrorObject "Content fetch failed") eq_refl)).
Defined.

(** C10 (duplicate page, undefined content): when [getPageContent] resolves to
    [undefined], [coda_duplicate_page] raises nothing at that step: it calls
    [createPage] with the undefined content, and when that call resolves its
    data is returned as a success; [coda_get_page_content] turns the same
    answer into its "Unknown error has occurred" error result. *)
Theorem duplicate_page_undefined_content :
  forall (world : Type) (up : Upstream world) (w w1 : world)
         (docId pageIdOrName newName : string),
    on_getPageContent up docId pageIdOrName w = (w1, inr None) ->
    let options :=
      {| cp_docId := docId; cp_name := newName; cp_content := None |} in
    calls (snd (run (coda_duplicate_page up docId pageIdOrName newName) w))
    = [CallGetPageContent docId pageIdOrName; CallCreatePage options]
    /\ (forall (w2 : world) (resp : json),
           on_createPage up options w1 = (w2, inr resp) ->
           fst (run (coda_duplicate_page up docId pageIdOrName newName) w)
           = inr {| content := [StringifyData resp]; isError := false |})
    /\ fst (run (coda_get_page_content up docId pageIdOrName) w)
       = inr {| content :=
                  [Raw "Failed to get page content : Unknown error has occurred"];
                isError := true |}.
Proof.
  intros world up w w1 docId pageIdOrName newName Hread options.
  rewrite run_duplicate_page, run_get_page_content, Hread.
  cbv zeta. fold options. repeat split.
  - destruct (on_createPage up options w1) as [w2 created]. reflexivity.
  - intros w2 resp Hcreate. rewrite Hcreate. reflexivity.
Qed.

Lemma duplicate_page_undefined_content_witness :
  on_getPageContent (Mock.upstream (inr None)) "doc-123" "page-456" 0
  = (1, inr None)
  /\ on_createPage (Mock.upstream (inr None))
       {| cp_docId := "doc-123"; cp_name := "Duplicated Page"; cp_content := None |} 1
     = (2, inr Mock.page_new)
  /\ fst (run (coda_duplicate_page (Mock.upstream (inr None))
                 "doc-123" "page-456" "Duplicated Page") 0)
     = inr {| content := [StringifyData Mock.page_new]; isError := false |}.
Proof.
  split; [reflexivity | split; [reflexivity | ] ].
  exact (proj1 (proj2 (duplicate_page_undefined_content
                         nat (Mock.upstream (inr None)) 0 1
                         "doc-123" "page-456" "Duplicated Page" eq_refl))
               2 Mock.page_new eq_refl).
Defined.

(* ------------------------------------------------------------------------- *)
(** ** Reading a page ([coda_get_page_content], [coda_peek_page]) *)

(** C2 (empty content is a success): with [getPageContent] resolving to the
    empty string, [coda_get_page_content] returns the empty string as a
    success, but [coda_peek_page], whatever the number of lines asked for,
    returns the error result "Failed to peek page : Unknown error has
    occurred": its test [!content] takes the empty string for a missing
    result. *)
Theorem peek_page_rejects_empty_content :
  forall numLines : Z,
    run (coda_get_page_content (Mock.upstream (inr (Some "")))
           "doc-123" "page-456") 0
    = (inr {| content := [Raw ""]; isError := false |},
       {| now := 1; calls := [CallGetPageContent "doc-123" "page-456"] |})
    /\ run (coda_peek_page (Mock.upstream (inr (Some "")))
              "doc-123" "page-456" numLines) 0
       = (inr {| content :=
                   [Raw "Failed to peek page : Unknown error has occurred"];
                 isError := true |},
          {| now := 1; calls := [CallGetPageContent "doc-123" "page-456"] |}).
Proof.
  intros numLines. split.
  - rewrite run_get_page_content. reflexivity.
  - rewrite run_peek_page. reflexivity.
Qed.

(** C7 (no content, no success): [coda_get_page_content] returns an error
    result, never a success, when [getPageContent] rejects (the message of the
    rejection is the reason) and when it resolves to [undefined] (the reason
    is "Unknown error has occurred"); and with [getPageContent] backed by the
    export-poll resolver, an export job that reports Failed within the wait
    budget makes the handler return the error result carrying the reported
    reason. *)
Theorem get_page_content_fails_without_content :
  (forall (world : Type) (up : Upstream world) (w w' : world)
          (docId pageIdOrName : string),
      (forall e : thrown,
          on_getPageContent up docId pageIdOrName w = (w', inl e) ->
          run (coda_get_page_content up docId pageIdOrName) w
          = (inr {| content :=
                      [Raw ("Failed to get page content : " ++ error_message e)];
                    isError := true |},
             {| now := w'; calls := [CallGetPageContent docId pageIdOrName] |}))
      /\ (on_getPageContent up docId pageIdOrName w = (w', inr None) ->
          run (coda_get_page_content up docId pageIdOrName) w
          = (inr {| content :=
                      [Raw "Failed to get page content : Unknown error has occurred"];
                    isError := true |},
             {| now := w'; calls := [CallGetPageContent docId pageIdOrName] |})))
  /\
  (forall (world : Type) (api : ExportPoll.ExportApi world)
          (sdk : Upstream world) (budget : nat) (w w1 w2 : world)
          (docId pageId exportId : string) (initial : ExportPoll.Status)
          (job : ExportPoll.ExportJob),
      ExportPoll.submitExport api docId pageId "markdown" w
      = (w1, inr (exportId, initial)) ->
      ExportPoll.settles api docId exportId budget w1 job w2 ->
      ExportPoll.job_status job = ExportPoll.Failed ->
      run (coda_get_page_content (ExportPoll.upstream api budget sdk)
                                 docId pageId) w
      = (inr {| content :=
                  [Raw ("Failed to get page content : "
                        ++ error_message (ExportPoll.UpstreamExportError job))];
                isError := true |},
         {| now := w2; calls := [CallGetPageContent docId pageId] |})).
Proof.
  split.
  - intros world up w w' docId pageIdOrName. split.
    + intros e Hread. rewrite run_get_page_content, Hread. reflexivity.
    + intros Hread. rewrite run_get_page_content, Hread. reflexivity.
  - intros world api sdk budget w w1 w2 docId pageId exportId initial job
           Hsubmit Hsettles Hfailed.
    rewrite run_get_page_content. cbn [on_getPageContent ExportPoll.upstream].
    unfold ExportPoll.resolveContent. rewrite Hsubmit.
    rewrite (poll_failed api _ _ _ _ _ _ Hsettles Hfailed). reflexivity.
Qed.

Lemma get_page_content_fails_without_content_witness :
  run (coda_get_page_content (Mock.upstream (inl (ErrorObject "Export failed")))
                             "doc-123" "page-456") 0
  = (inr {| content := [Raw "Failed to get page content : Export failed"];
            isError := true |},
     {| now := 1; calls := [CallGetPageContent "doc-123" "page-456"] |})
  /\ run (coda_get_page_content (Mock.upstream (inr None))
                                "doc-123" "page-456") 0
     = (inr {| content :=
                 [Raw "Failed to get page content : Unknown error has occurred"];
               isError := true |},
        {| now := 1; calls := [CallGetPageContent "doc-123" "page-456"] |})
  /\ run (coda_get_page_content
            (ExportPoll.upstream (Mock.export 2 Mock.failed_job "") 5
                                 (Mock.upstream (inr None)))
            "doc-123" "page-456") 7
     = (inr {| content := [Raw "Failed to get page content : conversion error"];
               isError := true |},
        {| now := 3; calls := [CallGetPageContent "doc-123" "page-456"] |}).
Proof.
  pose proof get_page_content_fails_without_content as [Hhandler Hexport].
  split; [ | split].
  - exact (proj1 (Hhandler nat (Mock.upstream (inl (ErrorObject "Export failed")))
                           0 1 "doc-123" "page-456")
                 (ErrorObject "Export failed") eq_refl).
  - exact (proj2 (Hhandler nat (Mock.upstream (inr None))
                           0 1 "doc-123" "page-456") eq_refl).
  - refine (Hexport nat (Mock.export 2 Mock.failed_job "")
                    (Mock.upstream (inr None)) 5 7 0 3
                    "doc-123" "page-456" "export-1"
                    ExportPoll.Pending Mock.failed_job eq_refl _ eq_refl).
    eapply ExportPoll.settles_later; [reflexivity | reflexivity | ].
    eapply ExportPoll.settles_later; [reflexivity | reflexivity | ].
    eapply ExportPoll.settles_now; [reflexivity | discriminate].
Defined.

(* ------------------------------------------------------------------------- *)
(** ** One message per failure *)

Ltac returned_unflagged E :=
  cbv beta iota delta [try_catch bind ret throw await_call
                       getPageContent listPages createPage updateRow] in E;
  simpl in E;
  repeat match type of E with
         | context [match ?answer with _ => _ end] => destruct answer; simpl in E
         end;
  inversion E; reflexivity.

(** C8 (one descriptive message): for the handlers of the core operations,
    [coda_get_page_content], [coda_peek_page], [coda_list_pages],
    [coda_bulk_update_rows] and [coda_duplicate_page], whatever the imported
    functions answer and in every state: the handler returns; when its body
    throws, the result is the single text made of the name of the operation
    ("Failed to get page content", ...), [" : "] and the reason, flagged with
    [isError: true]; when its body returns, the result is that success
    payload, unflagged.  The reason is the message of a thrown [Error], and
    the text itself of a thrown string. *)
Theorem failures_reduced_to_one_message :
  forall (world : Type) (up : Upstream world),
    (forall docId pageIdOrName (s : Session world),
        match coda_get_page_content_body up docId pageIdOrName s with
        | (inl e, s') =>
            coda_get_page_content up docId pageIdOrName s
            = (inr {| content := [Raw ("Failed to get page content : " ++ error_message e)];
                      isError := true |},
               s')
        | (inr result, s') =>
            coda_get_page_content up docId pageIdOrName s = (inr result, s')
            /\ isError result = false
        end)
    /\ (forall docId pageIdOrName numLines (s : Session world),
        match coda_peek_page_body up docId pageIdOrName numLines s with
        | (inl e, s') =>
            coda_peek_page up docId pageIdOrName numLines s
            = (inr {| content := [Raw ("Failed to peek page : " ++ error_message e)];
                      isError := true |},
               s')
        | (inr result, s') =>
            coda_peek_page up docId pageIdOrName numLines s = (inr result, s')
            /\ isError result = false
        end)
    /\ (forall docId limit nextPageToken (s : Session world),
        match coda_list_pages_body up docId limit nextPageToken s with
        | (inl e, s') =>
            coda_list_pages up docId limit nextPageToken s
            = (inr {| content := [Raw ("Failed to list pages : " ++ error_message e)];
                      isError := true |},
               s')
        | (inr result, s') =>
            coda_list_pages up docId limit nextPageToken s = (inr result, s')
            /\ isError result = false
        end)
    /\ (forall docId tableIdOrName updates (s : Session world),
        match coda_bulk_update_rows_body up docId tableIdOrName updates s with
        | (inl e, s') =>
            coda_bulk_update_rows up docId tableIdOrName updates s
            = (inr {| content := [Raw ("Failed to bulk update rows : " ++ error_message e)];
                      isError := true |},
               s')
        | (inr result, s') =>
            coda_bulk_update_rows up docId tableIdOrName updates s = (inr result, s')
            /\ isError result = false
        end)
    /\ (forall docId pageIdOrName newName (s : Session world),
        match coda_duplicate_page_body up docId pageIdOrName newName s with
        | (inl e, s') =>
            coda_duplicate_page up docId pageIdOrName newName s
            = (inr {| content := [Raw ("Failed to duplicate page : " ++ error_message e)];
                      isError := true |},
               s')
        | (inr result, s') =>
            coda_duplicate_page up docId pageIdOrName newName s = (inr result, s')
            /\ isError result = false
        end)
    /\ (forall message, error_message (ErrorObject message) = message)
    /\ (forall text, error_message (Primitive (Str text)) = text).
Proof.
  intros world up. repeat split; intros.
  - unfold coda_get_page_content, try_catch.
    destruct (coda_get_page_content_body up docId pageIdOrName s)
      as [[e | result] s'] eqn:E; [reflexivity | split; [reflexivity | ] ].
    unfold coda_get_page_content_body in E. returned_unflagged E.
  - unfold coda_peek_page, try_catch.
    destruct (coda_peek_page_body up docId pageIdOrName numLines s)
      as [[e | result] s'] eqn:E; [reflexivity | split; [reflexivity | ] ].
    unfold coda_peek_page_body in E. returned_unflagged E.
  - unfold coda_list_pages, try_catch.
    destruct (coda_list_pages_body up docId limit nextPageToken s)
      as [[e | result] s'] eqn:E; [reflexivity | split; [reflexivity | ] ].
    unfold coda_list_pages_body in E. returned_unflagged E.
  - unfold coda_bulk_update_rows, try_catch.
    destruct (coda_bulk_update_rows_body up docId tableIdOrName updates s)
      as [[e | result] s'] eqn:E; [reflexivity | split; [reflexivity | ] ].
    unfold coda_bulk_update_rows_body, bind in E.
    rewrite bulk_loop_run in E.
    destruct (answers up docId tableIdOrName updates (now s)) as [ans w'].
    inversion E; reflexivity.
  - unfold coda_duplicate_page, try_catch.
    destruct (coda_duplicate_page_body up docId pageIdOrName newName s)
      as [[e | result] s'] eqn:E; [reflexivity | split; [reflexivity | ] ].
    unfold coda_duplicate_page_body in E. returned_unflagged E.
Qed.

(** The five handlers on failures of three kinds, an [Error], a thrown
    string and a plain object, and on a success. *)
Lemma failures_reduced_to_one_message_witness :
  let start : Session nat := {| now := 0; calls := [] |} in
  coda_get_page_content (Mock.upstream (inl (ErrorObject "Export failed")))
                        "doc-123" "page-456" start
  = (inr {| content := [Raw "Failed to get page content : Export failed"];
            isError := true |},
     {| now := 1; calls := [CallGetPageContent "doc-123" "page-456"] |})
  /\ coda_peek_page (Mock.upstream (inl (Primitive (Str "socket hang up"))))
                    "doc-123" "page-456" 3 start
     = (inr {| content := [Raw "Failed to peek page : socket hang up"];
               isError := true |},
        {| now := 1; calls := [CallGetPageContent "doc-123" "page-456"] |})
  /\ coda_duplicate_page (Mock.upstream (inl PlainObject))
                         "doc-123" "page-456" "Copy" start
     = (inr {| content := [Raw "Failed to duplicate page : [object Object]"];
               isError := true |},
        {| now := 1; calls := [CallGetPageContent "doc-123" "page-456"] |})
  /\ coda_get_page_content (Mock.upstream (inr (Some "# Title")))
                           "doc-123" "page-456" start
     = (inr {| content := [Raw "# Title"]; isError := false |},
        {| now := 1; calls := [CallGetPageContent "doc-123" "page-456"] |}).
Proof.
  intros start.
  pose proof (fun up => failures_reduced_to_one_message nat up) as Hall.
  split; [ | split; [ | split] ].
  - exact (proj1 (Hall (Mock.upstream (inl (ErrorObject "Export failed"))))
                 "doc-123" "page-456" start).
  - exact (proj1 (proj2 (Hall (Mock.upstream
                                 (inl (Primitive (Str "socket hang up"))))))
                 "doc-123" "page-456" 3%Z start).
  - exact (proj1 (proj2 (proj2 (proj2 (proj2 (Hall (Mock.upstream
                                                      (inl PlainObject)))))))
                 "doc-123" "page-456" "Copy" start).
  - exact (proj1 (proj1 (Hall (Mock.upstream (inr (Some "# Title"))))
                        "doc-123" "page-456" start)).
Defined.

(* ------------------------------------------------------------------------- *)
(** ** Bulk update ([coda_bulk_update_rows]) *)

(** C4 (best-effort batch): for every list of updates, the handler sends one
    [updateRow] request per update, in the order of the list and whatever the
    earlier requests answered; it returns a report, never an error result,
    whose rows are, position by position, the outcome of each update for the
    answer its own request got (a rejection becomes a row with
    [success: false] and the message).  In particular, when of three updates
    the first and the third are answered and the second is rejected, the
    three requests are all sent and the report is success, failure, success
    with the counts 3, 2 and 1. *)
Theorem bulk_update_isolates_failures :
  forall (world : Type) (up : Upstream world) (w : world)
         (docId tableIdOrName : string),
    (forall updates : list RowUpdate,
        let (ans, w') := answers up docId tableIdOrName updates w in
        exists report,
          run (coda_bulk_update_rows up docId tableIdOrName updates) w
          = (inr {| content := [StringifyReport report]; isError := false |},
             {| now := w';
                calls := map (fun u => CallUpdateRow
                                         (update_request docId tableIdOrName u))
                             updates |})
          /\ List.length ans = List.length updates
          /\ results report
             = map (fun ua => outcome (fst ua) (snd ua)) (combine updates ans))
    /\
    (forall (A B C : RowUpdate) (dataA dataC : json) (errorB : thrown)
            (w' : world),
        answers up docId tableIdOrName [A; B; C] w
        = ([inr dataA; inl errorB; inr dataC], w') ->
        run (coda_bulk_update_rows up docId tableIdOrName [A; B; C]) w
        = (inr {| content :=
                    [StringifyReport
                       {| results :=
                            [ {| rowId := rowIdOrName A; success := true;
                                 data := Some dataA; error := None |};
                              {| rowId := rowIdOrName B; success := false;
                                 data := None;
                                 error := Some (error_message errorB) |};
                              {| rowId := rowIdOrName C; success := true;
                                 data := Some dataC; error := None |} ];
                          totalUpdates := 3;
                          successful := 2;
                          failed := 1 |}];
                  isError := false |},
           {| now := w';
              calls :=
                [CallUpdateRow (update_request docId tableIdOrName A);
                 CallUpdateRow (update_request docId tableIdOrName B);
                 CallUpdateRow (update_request docId tableIdOrName C)] |})).
Proof.
  intros world up w docId tableIdOrName. split.
  - intros updates.
    pose proof (answers_length up docId tableIdOrName updates w) as Hlen.
    pose proof (run_bulk_update_rows up docId tableIdOrName updates w) as Hrun.
    destruct (answers up docId tableIdOrName updates w) as [ans w'].
    cbv zeta in Hrun. eexists. split; [exact Hrun | ].
    split; [exact Hlen | reflexivity].
  - intros A B C dataA dataC errorB w' Hanswers.
    rewrite run_bulk_update_rows, Hanswers. reflexivity.
Qed.

Lemma bulk_update_isolates_failures_witness :
  let A := {| rowIdOrName := "A"; values := [("Status", JString "done")] |} in
  let B := {| rowIdOrName := "B"; values := [("Status", JString "done")] |} in
  let C := {| rowIdOrName := "C"; values := [] |} in
  answers (Mock.upstream (inr None)) "doc-123" "table-1" [A; B; C] 0
  = ([inr (Mock.row_data "A"); inl (ErrorObject "Row not found");
      inr (Mock.row_data "C")], 3)
  /\ run (coda_bulk_update_rows (Mock.upstream (inr None))
                                "doc-123" "table-1" [A; B; C]) 0
     = (inr {| content :=
                 [StringifyReport
                    {| results :=
                         [ {| rowId := "A"; success := true;
                              data := Some (Mock.row_data "A"); error := None |};
                           {| rowId := "B"; success := false;
                              data := None; error := Some "Row not found" |};
                           {| rowId := "C"; success := true;
                              data := Some (Mock.row_data "C"); error := None |} ];
                       totalUpdates := 3;
                       successful := 2;
                       failed := 1 |}];
               isError := false |},
        {| now := 3;
           calls :=
             [CallUpdateRow (update_request "doc-123" "table-1" A);
              CallUpdateRow (update_request "doc-123" "table-1" B);
              CallUpdateRow (update_request "doc-123" "table-1" C)] |}).
Proof.
  intros A B C. split; [reflexivity | ].
  exact (proj2 (bulk_update_isolates_failures
                  nat (Mock.upstream (inr None)) 0 "doc-123" "table-1")
               A B C (Mock.row_data "A") (Mock.row_data "C")
               (ErrorObject "Row not found") 3 eq_refl).
Defined.

(** C5 (consistent counts): for every list of updates, the empty one
    included, the handler returns a report with one row per update, whose
    [totalUpdates] is the number of rows and the sum of [successful] and
    [failed]; for the empty list the report has no rows and three zero
    counts, and no request is sent. *)
Theorem bulk_report_counts :
  forall (world : Type) (up : Upstream world) (w : world)
         (docId tableIdOrName : string),
    (forall updates : list RowUpdate,
        exists report,
          fst (run (coda_bulk_update_rows up docId tableIdOrName updates) w)
          = inr {| content := [StringifyReport report]; isError := false |}
          /\ List.length (results report) = List.length updates
          /\ List.length (results report) = totalUpdates report
          /\ totalUpdates report = successful report + failed report
          /\ map rowId (results report) = map rowIdOrName updates)
    /\ run (coda_bulk_update_rows up docId tableIdOrName []) w
       = (inr {| content :=
                   [StringifyReport {| results := []; totalUpdates := 0;
                                       successful := 0; failed := 0 |}];
                 isError := false |},
          {| now := w; calls := [] |}).
Proof.
  intros world up w docId tableIdOrName. split.
  - intros updates. rewrite run_bulk_update_rows.
    pose proof (answers_length up docId tableIdOrName updates w) as Hlen.
    destruct (answers up docId tableIdOrName updates w) as [ans w'].
    cbv zeta. cbn [fst] in *. eexists. split; [reflexivity | ].
    cbn [results totalUpdates successful failed].
    pose proof (outcomes_length updates ans Hlen) as Hrows.
    repeat split.
    + exact Hrows.
    + exact Hrows.
    + rewrite filter_split_length. symmetry. exact Hrows.
    + clear Hrows. revert ans Hlen.
      induction updates as [ | update updates IH]; intros [ | answer ans] Hlen;
        try discriminate; [reflexivity | ].
      unfold outcomes. cbn [combine map fst snd].
      f_equal; [destruct answer; reflexivity | ].
      apply IH. now injection Hlen.
  - rewrite run_bulk_update_rows. reflexivity.
Qed.

(* ------------------------------------------------------------------------- *)
(** ** Peeking into a page ([coda_peek_page]) *)

Section Splitting.

(** How [split_line_breaks] goes past a character that starts no line break. *)
Lemma split_keep c rest :
  Ascii.eqb c LF = false ->
  (Ascii.eqb c CR = true -> forall rest', rest <> String LF rest') ->
  split_line_breaks (String c rest) =
    match split_line_breaks rest with
    | [] => [String c EmptyString]
    | line :: lines => String c line :: lines
    end.
Proof.
  intros HLF HCR. cbn [split_line_breaks]. rewrite HLF.
  destruct (Ascii.eqb c CR) eqn:ECR; [ | reflexivity].
  destruct rest as [ | c' rest']; [reflexivity | ].
  destruct (Ascii.eqb c' LF) eqn:E'; [ | reflexivity].
  apply Ascii.eqb_eq in E'. subst c'. now elim (HCR eq_refl rest').
Qed.

(** A text without line feed is one line. *)
Lemma split_single_line line :
  contains LF line = false -> split_line_breaks line = [line].
Proof.
  induction line as [ | c line IH]; intros Hfree; [reflexivity | ].
  cbn [contains] in Hfree. apply orb_false_iff in Hfree as [Hc Hline].
  rewrite split_keep.
  - now rewrite (IH Hline).
  - exact Hc.
  - intros _ rest' ->. cbn in Hline. discriminate.
Qed.

(** Splitting takes off one line with its line break. *)
Lemma split_chunk line brk text :
  well_cut (line, brk) ->
  split_line_breaks (line ++ brk ++ text) = line :: split_line_breaks text.
Proof.
  unfold well_cut. cbn [fst snd]. intros [Hfree Hbrk].
  induction line as [ | c line IH].
  - destruct Hbrk as [-> | [-> _]]; reflexivity.
  - cbn [contains] in Hfree. apply orb_false_iff in Hfree as [Hc Hline].
    cbn [append]. rewrite split_keep.
    + rewrite IH; [reflexivity | exact Hline | ].
      destruct Hbrk as [-> | [-> Hend]]; [now left | right; split; trivial].
      destruct line; [reflexivity | exact Hend].
    + exact Hc.
    + intros HCR rest' Hrest.
      destruct line as [ | c' line].
      * destruct Hbrk as [-> | [-> Hend]]; [discriminate Hrest | ].
        cbn in Hend. congruence.
      * cbn in Hrest, Hline. injection Hrest as -> _.
        cbn in Hline. discriminate.
Qed.

(** Splitting a text gives back the lines it is made of, whatever the style
    of each line break. *)
Lemma split_text_of chunks last :
  Forall well_cut chunks ->
  contains LF last = false ->
  split_line_breaks (text_of chunks last) = lines_of chunks last.
Proof.
  intros Hchunks Hlast. unfold lines_of.
  induction Hchunks as [ | [line brk] chunks Hchunk _ IH]; cbn [text_of fold_right map app].
  - now apply split_single_line.
  - cbn [fst snd]. fold (text_of chunks last).
    rewrite split_chunk by exact Hchunk. now rewrite IH.
Qed.

(** A character that starts no line break extends the first line. *)
Lemma text_of_cons c chunks last :
  Ascii.eqb c LF = false ->
  (Ascii.eqb c CR = true -> forall rest', text_of chunks last <> String LF rest') ->
  Forall well_cut chunks ->
  contains LF last = false ->
  exists chunks' last',
    Forall well_cut chunks' /\ contains LF last' = false
    /\ text_of chunks' last' = String c (text_of chunks last).
Proof.
  intros Hc HCR Hchunks Hlast.
  destruct chunks as [ | [line brk] chunks].
  - exists [], (String c last). repeat split; [constructor | ].
    cbn [contains]. now rewrite Hc.
  - exists ((String c line, brk) :: chunks), last.
    inversion Hchunks as [ | ? ? [Hfree Hbrk] Hrest]; subst.
    cbn [fst snd] in *. repeat split; trivial.
    constructor; [ | exact Hrest]. split; cbn [fst snd].
    + cbn [contains]. now rewrite Hc.
    + destruct Hbrk as [-> | [-> Hend]]; [now left | right; split; trivial].
      destruct line as [ | c' line]; [ | exact Hend].
      cbn [ends_with].
      destruct (Ascii.eqb c CR) eqn:ECR; [ | reflexivity].
      exfalso. eapply (HCR eq_refl). reflexivity.
Qed.

(** Every text is made of well-cut lines: nothing of it is outside them. *)
Lemma text_decomposes (s : string) :
  exists chunks last,
    Forall well_cut chunks /\ contains LF last = false
    /\ text_of chunks last = s.
Proof.
  enough (H : (exists chunks last,
                  Forall well_cut chunks /\ contains LF last = false
                  /\ text_of chunks last = s)
              /\ forall c, exists chunks last,
                  Forall well_cut chunks /\ contains LF last = false
                  /\ text_of chunks last = String c s) by apply H.
  induction s as [ | a s [IHs IHas]].
  - split; [exists [], ""; repeat split; constructor | ].
    intros c. destruct (Ascii.eqb c LF) eqn:Ec.
    + apply Ascii.eqb_eq in Ec. subst c.
      exists [("", line_feed)], "". repeat split.
      constructor; [ | constructor]. split; [reflexivity | right; now split].
    + exists [], (String c ""). repeat split; [constructor | ].
      cbn [contains]. now rewrite Ec.
  - split; [apply IHas | ]. intros c.
    destruct (Ascii.eqb c LF) eqn:Ec.
    + apply Ascii.eqb_eq in Ec. subst c.
      destruct (IHas a) as (chunks & last & Hchunks & Hlast & Htext).
      exists (("", line_feed) :: chunks), last. repeat split; trivial.
      * constructor; trivial. split; [reflexivity | right; now split].
      * cbn [text_of fold_right fst snd]. fold (text_of chunks last).
        now rewrite Htext.
    + destruct (Ascii.eqb c CR && Ascii.eqb a LF) eqn:Ecrlf.
      * apply andb_true_iff in Ecrlf as [Ecr Ea].
        apply Ascii.eqb_eq in Ecr, Ea. subst c a.
        destruct IHs as (chunks & last & Hchunks & Hlast & Htext).
        exists (("", cr_line_feed) :: chunks), last. repeat split; trivial.
        -- constructor; trivial. split; [reflexivity | now left].
        -- cbn [text_of fold_right fst snd]. fold (text_of chunks last).
           now rewrite Htext.
      * destruct (IHas a) as (chunks & last & Hchunks & Hlast & Htext).
        rewrite <- Htext. apply text_of_cons; trivial.
        intros Ecr rest'. rewrite Htext. intros Heq.
        injection Heq as -> _. rewrite Ecr in Ecrlf. discriminate.
Qed.

(** Joining the lines with [sep] is the text with every line break replaced
    by [sep]. *)
Lemma join_lines_of sep chunks last :
  join sep (lines_of chunks last) = text_of (normalized sep chunks) last.
Proof.
  unfold lines_of, normalized.
  induction chunks as [ | [line brk] chunks IH]; [reflexivity | ].
  cbn [map app fst snd text_of fold_right]. cbn [map app] in IH.
  fold (text_of (map (fun chunk => (fst chunk, sep)) chunks) last).
  rewrite <- IH.
  destruct (map fst chunks ++ [last])%list eqn:E; [ | reflexivity].
  now destruct (map fst chunks).
Qed.

(** [slice(0, n)] with a positive [n] keeps the first [n] elements. *)
Lemma slice0_positive {A : Type} (xs : list A) (n : Z) :
  (0 < n)%Z -> slice0 xs n = firstn (Z.to_nat n) xs.
Proof.
  intros Hn. unfold slice0.
  destruct (Z.ltb_spec n 0) as [Hneg | _]; [lia | ].
  destruct (Z.le_gt_cases n (Z.of_nat (List.length xs))) as [Hle | Hgt].
  - now rewrite Z.min_l.
  - rewrite Z.min_r by lia. rewrite Nat2Z.id.
    rewrite firstn_all. symmetry. apply firstn_all2. lia.
Qed.

End Splitting.

(** For a page whose content is not empty and a positive number of lines,
    [coda_peek_page] returns the first [numLines] lines of the text that
    [coda_get_page_content] returns, joined by line feeds; the lines are those
    the text is made of, whether a line feed or a carriage return and a line
    feed ends each of them.  When the text has no more than [numLines] lines
    the result is the whole text with every line break turned into a line
    feed. *)
Lemma peek_page_first_lines :
  forall (world : Type) (up : Upstream world) (w w' : world)
         (docId pageIdOrName : string) (numLines : Z)
         (chunks : list Chunk) (last : string),
    Forall well_cut chunks ->
    contains LF last = false ->
    text_of chunks last <> "" ->
    (0 < numLines)%Z ->
    on_getPageContent up docId pageIdOrName w
    = (w', inr (Some (text_of chunks last))) ->
    fst (run (coda_get_page_content up docId pageIdOrName) w)
    = inr {| content := [Raw (text_of chunks last)]; isError := false |}
    /\ fst (run (coda_peek_page up docId pageIdOrName numLines) w)
       = inr {| content :=
                  [Raw (join line_feed
                             (firstn (Z.to_nat numLines) (lines_of chunks last)))];
                isError := false |}
    /\ ((Z.of_nat (List.length (lines_of chunks last)) <= numLines)%Z ->
        fst (run (coda_peek_page up docId pageIdOrName numLines) w)
        = inr {| content := [Raw (text_of (normalized line_feed chunks) last)];
                 isError := false |}).
Proof.
  intros world up w w' docId pageIdOrName numLines chunks last
         Hchunks Hlast Hnonempty Hpositive Hread.
  rewrite run_get_page_content, run_peek_page, Hread. cbn [fst].
  destruct (text_of chunks last) as [ | c text] eqn:Htext;
    [now elim Hnonempty | ].
  rewrite <- Htext, split_text_of, slice0_positive by assumption.
  repeat split. intros Hall.
  rewrite firstn_all2 by lia. now rewrite join_lines_of.
Qed.

(** Every content that is not empty is covered: it is made of well-cut lines,
    and the peek is the first [numLines] of them joined by line feeds. *)
Corollary peek_page_first_lines_of_text :
  forall (world : Type) (up : Upstream world) (w w' : world)
         (docId pageIdOrName text : string) (numLines : Z),
    text <> "" ->
    (0 < numLines)%Z ->
    on_getPageContent up docId pageIdOrName w = (w', inr (Some text)) ->
    exists chunks last,
      Forall well_cut chunks /\ contains LF last = false
      /\ text_of chunks last = text
      /\ split_line_breaks text = lines_of chunks last
      /\ fst (run (coda_peek_page up docId pageIdOrName numLines) w)
         = inr {| content :=
                    [Raw (join line_feed
                               (firstn (Z.to_nat numLines)
                                       (lines_of chunks last)))];
                  isError := false |}.
Proof.
  intros world up w w' docId pageIdOrName text numLines
         Hnonempty Hpositive Hread.
  destruct (text_decomposes text) as (chunks & last & Hchunks & Hlast & Htext).
  exists chunks, last. subst text. repeat split; trivial.
  - now apply split_text_of.
  - now apply (peek_page_first_lines world up w w').
Qed.

(** Three lines ended in both styles, peeked at two lines and at five. *)
Example peek_page_mixed_line_breaks :
  let text := "# Title" ++ cr_line_feed ++ "Line 1" ++ line_feed ++ "Line 2" in
  fst (run (coda_peek_page (Mock.upstream (inr (Some text)))
              "doc-123" "page-456" 2) 0)
  = inr {| content := [Raw ("# Title" ++ line_feed ++ "Line 1")];
           isError := false |}
  /\ fst (run (coda_peek_page (Mock.upstream (inr (Some text)))
                 "doc-123" "page-456" 5) 0)
     = inr {| content :=
                [Raw ("# Title" ++ line_feed ++ "Line 1" ++ line_feed ++ "Line 2")];
              isError := false |}.
Proof.
  split; reflexivity.
Qed.

(** C1 (peek returns the first lines): the empty string is a content that
    [coda_get_page_content] returns as a success, and its first line, joined,
    is the empty string; [coda_peek_page] asked for one line of it returns
    the error result "Failed to peek page : Unknown error has occurred"
    instead. *)
Theorem peek_page_empty_content_no_lines :
  fst (run (coda_get_page_content (Mock.upstream (inr (Some "")))
              "doc-123" "page-456") 0)
  = inr {| content := [Raw ""]; isError := false |}
  /\ join line_feed (slice0 (split_line_breaks "") 1) = ""
  /\ fst (run (coda_peek_page (Mock.upstream (inr (Some "")))
                 "doc-123" "page-456" 1) 0)
     = inr {| content := [Raw "Failed to peek page : Unknown error has occurred"];
              isError := true |}.
Proof.
  repeat split.
Qed.

(* ------------------------------------------------------------------------- *)
(** ** Further properties of the peek *)

Lemma append_assoc (a b c : string) : ((a ++ b) ++ c = a ++ (b ++ c))%string.
Proof. induction a as [ | x a IH]; simpl; [reflexivity | now rewrite IH]. Qed.

Lemma append_empty_r (a : string) : (a ++ "" = a)%string.
Proof. induction a as [ | x a IH]; simpl; [reflexivity | now rewrite IH]. Qed.

Lemma occurrences_app c (a b : string) :
  occurrences c (a ++ b) = occurrences c a + occurrences c b.
Proof.
  induction a as [ | x a IH]; simpl; [reflexivity | rewrite IH; lia].
Qed.

Lemma contains_app c (a b : string) :
  contains c (a ++ b) = contains c a || contains c b.
Proof.
  induction a as [ | x a IH]; simpl; [reflexivity | ].
  rewrite IH. now rewrite orb_assoc.
Qed.

Lemma occurrences_absent c (s : string) :
  contains c s = false -> occurrences c s = 0.
Proof.
  induction s as [ | x s IH]; simpl; [reflexivity | ].
  intros H. apply orb_false_iff in H as [Hx Hs].
  rewrite Hx. now rewrite IH.
Qed.

Lemma well_cut_one_line_feed (chunk : Chunk) :
  well_cut chunk -> occurrences LF (fst chunk ++ snd chunk) = 1.
Proof.
  intros [Hfree Hbrk]. rewrite occurrences_app, (occurrences_absent _ _ Hfree).
  destruct Hbrk as [-> | [-> _]]; reflexivity.
Qed.

(** A text has as many line feeds as it has lines ended by a line break. *)
Lemma occurrences_text_of chunks last :
  Forall well_cut chunks ->
  contains LF last = false ->
  occurrences LF (text_of chunks last) = List.length chunks.
Proof.
  intros Hchunks Hlast.
  induction Hchunks as [ | chunk chunks Hchunk _ IH]; cbn [text_of fold_right].
  - now apply occurrences_absent.
  - fold (text_of chunks last).
    rewrite <- append_assoc, occurrences_app, well_cut_one_line_feed by trivial.
    cbn [List.length]. now rewrite IH.
Qed.

(** Joined by line feeds, lines without line feed give one line feed less
    than there are lines. *)
Lemma occurrences_join lines :
  Forall (fun line => contains LF line = false) lines ->
  lines <> [] ->
  S (occurrences LF (join line_feed lines)) = List.length lines.
Proof.
  intros Hfree. induction Hfree as [ | line lines Hline Hrest IH];
    [congruence | intros _].
  destruct lines as [ | next lines].
  - cbn. now rewrite (occurrences_absent _ _ Hline).
  - change (join line_feed (line :: next :: lines))
      with (line ++ line_feed ++ join line_feed (next :: lines))%string.
    rewrite !occurrences_app, (occurrences_absent _ _ Hline).
    specialize (IH ltac:(discriminate)).
    change (occurrences LF line_feed) with 1.
    cbn [List.length] in *. lia.
Qed.

Lemma lines_of_free chunks last :
  Forall well_cut chunks ->
  contains LF last = false ->
  Forall (fun line => contains LF line = false) (lines_of chunks last).
Proof.
  intros Hchunks Hlast. unfold lines_of. apply Forall_app. split.
  - induction Hchunks as [ | chunk chunks [Hfree _] _ IH]; constructor; trivial.
  - now constructor.
Qed.

Lemma Forall_first {A : Type} (P : A -> Prop) (n : nat) (xs : list A) :
  Forall P xs -> Forall P (firstn n xs).
Proof.
  intros H. rewrite <- (firstn_skipn n xs) in H.
  now apply Forall_app in H.
Qed.

Lemma lines_of_length chunks last :
  List.length (lines_of chunks last) = S (List.length chunks).
Proof.
  unfold lines_of. rewrite length_app, length_map. apply Nat.add_1_r.
Qed.

(** X1.  For a content that is not empty and a positive number of lines, the
    preview of [coda_peek_page] holds one line feed less than the smaller of
    the number of lines asked for and the number of lines of the content,
    which is its number of line feeds plus one: the preview never has more
    lines than asked for, nor than the page has. *)
Theorem peek_page_line_feed_count :
  forall (world : Type) (up : Upstream world) (w w' : world)
         (docId pageIdOrName text : string) (numLines : Z),
    text <> "" ->
    (0 < numLines)%Z ->
    on_getPageContent up docId pageIdOrName w = (w', inr (Some text)) ->
    exists preview,
      fst (run (coda_peek_page up docId pageIdOrName numLines) w)
      = inr {| content := [Raw preview]; isError := false |}
      /\ S (occurrences LF preview)
         = Nat.min (Z.to_nat numLines) (S (occurrences LF text)).
Proof.
  intros world up w w' docId pageIdOrName text numLines
         Hnonempty Hpositive Hread.
  destruct (text_decomposes text) as (chunks & last & Hchunks & Hlast & Htext).
  subst text.
  destruct (peek_page_first_lines world up w w' docId pageIdOrName numLines
              chunks last Hchunks Hlast Hnonempty Hpositive Hread)
    as (_ & Hpeek & _).
  eexists. split; [exact Hpeek | ].
  - rewrite occurrences_text_of by trivial.
    rewrite occurrences_join.
    + rewrite length_firstn, lines_of_length. reflexivity.
    + apply Forall_first. now apply lines_of_free.
    + pose proof (lines_of_length chunks last) as Hlen.
      destruct (lines_of chunks last); [discriminate | ].
      destruct (Z.to_nat numLines) eqn:En; [lia | discriminate].
Qed.

Lemma peek_page_line_feed_count_witness :
  let text := "# Title" ++ cr_line_feed ++ "Line 1" ++ line_feed ++ "Line 2" in
  text <> ""
  /\ (0 < 2)%Z
  /\ on_getPageContent (Mock.upstream (inr (Some text))) "doc-123" "page-456" 0
     = (1, inr (Some text))
  /\ exists preview,
       fst (run (coda_peek_page (Mock.upstream (inr (Some text)))
                   "doc-123" "page-456" 2) 0)
       = inr {| content := [Raw preview]; isError := false |}
       /\ S (occurrences LF preview)
          = Nat.min (Z.to_nat 2) (S (occurrences LF text)).
Proof.
  intros text.
  assert (Hnonempty : text <> "") by discriminate.
  assert (Hpositive : (0 < 2)%Z) by lia.
  repeat split; trivial.
  exact (peek_page_line_feed_count
           nat (Mock.upstream (inr (Some text))) 0 1 "doc-123" "page-456"
           text 2 Hnonempty Hpositive eq_refl).
Defined.

Lemma line_feeds_only chunks last :
  Forall well_cut chunks ->
  contains CR (text_of chunks last) = false ->
  Forall (fun chunk => snd chunk = line_feed) chunks.
Proof.
  intros Hchunks. induction Hchunks as [ | chunk chunks [_ Hbrk] _ IH];
    cbn [text_of fold_right]; intros Hfree; constructor.
  - rewrite !contains_app in Hfree.
    apply orb_false_iff in Hfree as [_ Hfree].
    apply orb_false_iff in Hfree as [Hfree _].
    destruct Hbrk as [Hcr | [Hlf _]]; [ | exact Hlf].
    rewrite Hcr in Hfree. discriminate.
  - apply IH. rewrite !contains_app in Hfree.
    apply orb_false_iff in Hfree as [_ Hfree].
    now apply orb_false_iff in Hfree as [_ Hfree].
Qed.

(** With line feeds as the only line breaks, the first lines joined by line
    feeds are the beginning of the text, and all of it when no line is left
    out. *)
Lemma first_lines_prefix chunks last :
  Forall (fun chunk => snd chunk = line_feed) chunks ->
  forall k,
  exists rest,
    text_of chunks last
    = (join line_feed (firstn (S k) (lines_of chunks last)) ++ rest)%string
    /\ (List.length chunks <= k -> rest = "").
Proof.
  intros Hchunks. induction Hchunks as [ | [line brk] chunks Hbrk _ IH]; intros k.
  - exists "". split; [ | reflexivity].
    unfold lines_of. cbn [map app firstn]. rewrite firstn_nil.
    cbn. now rewrite append_empty_r.
  - cbn [snd] in Hbrk. subst brk.
    change (lines_of ((line, line_feed) :: chunks) last)
      with (line :: lines_of chunks last).
    cbn [text_of fold_right fst snd firstn]. fold (text_of chunks last).
    destruct k as [ | k].
    + exists (line_feed ++ text_of chunks last)%string.
      split; [reflexivity | cbn [List.length]; lia].
    + destruct (IH k) as (rest & Htext & Hrest).
      exists rest. split.
      * rewrite Htext.
        destruct (lines_of chunks last) as [ | next lines] eqn:Elines;
          [now destruct chunks | ].
        cbn [firstn].
        change (join line_feed (line :: next :: firstn k lines))
          with (line ++ line_feed ++ join line_feed (next :: firstn k lines))%string.
        now rewrite !append_assoc.
      * cbn [List.length]. intros Hk. apply Hrest. lia.
Qed.

(** X2.  For a content without carriage return, the preview of
    [coda_peek_page] is the beginning of the content, character for
    character, and it is the whole content, unchanged, when the number of
    lines asked for is at least the number of lines of the content. *)
Theorem peek_page_prefix_without_carriage_return :
  forall (world : Type) (up : Upstream world) (w w' : world)
         (docId pageIdOrName text : string) (numLines : Z),
    text <> "" ->
    (0 < numLines)%Z ->
    contains CR text = false ->
    on_getPageContent up docId pageIdOrName w = (w', inr (Some text)) ->
    exists preview rest,
      fst (run (coda_peek_page up docId pageIdOrName numLines) w)
      = inr {| content := [Raw preview]; isError := false |}
      /\ text = (preview ++ rest)%string
      /\ ((Z.of_nat (S (occurrences LF text)) <= numLines)%Z -> preview = text).
Proof.
  intros world up w w' docId pageIdOrName text numLines
         Hnonempty Hpositive Hfree Hread.
  destruct (text_decomposes text) as (chunks & last & Hchunks & Hlast & Htext).
  subst text.
  destruct (peek_page_first_lines world up w w' docId pageIdOrName numLines
              chunks last Hchunks Hlast Hnonempty Hpositive Hread)
    as (_ & Hpeek & _).
  pose proof (line_feeds_only chunks last Hchunks Hfree) as Hlf.
  destruct (first_lines_prefix chunks last Hlf (Z.to_nat numLines - 1))
    as (rest & Hprefix & Hrest).
  replace (S (Z.to_nat numLines - 1)) with (Z.to_nat numLines) in Hprefix by lia.
  eexists. exists rest. split; [exact Hpeek | ]. split; [exact Hprefix | ].
  rewrite occurrences_text_of by trivial. intros Hall.
  assert (Hnone : rest = "") by (apply Hrest; unfold Chunk in *; lia).
  subst rest.
  rewrite append_empty_r in Hprefix. now symmetry.
Qed.

Lemma peek_page_prefix_without_carriage_return_witness :
  let text := "# Title" ++ line_feed ++ "Line 1" ++ line_feed ++ "Line 2" in
  text <> ""
  /\ (0 < 2)%Z
  /\ contains CR text = false
  /\ on_getPageContent (Mock.upstream (inr (Some text))) "doc-123" "page-456" 0
     = (1, inr (Some text))
  /\ exists preview rest,
       fst (run (coda_peek_page (Mock.upstream (inr (Some text)))
                   "doc-123" "page-456" 2) 0)
       = inr {| content := [Raw preview]; isError := false |}
       /\ text = (preview ++ rest)%string
       /\ ((Z.of_nat (S (occurrences LF text)) <= 2)%Z -> preview = text).
Proof.
  intros text.
  assert (Hnonempty : text <> "") by discriminate.
  assert (Hpositive : (0 < 2)%Z) by lia.
  repeat split; trivial.
  exact (peek_page_prefix_without_carriage_return
           nat (Mock.upstream (inr (Some text))) 0 1 "doc-123" "page-456"
           text 2 Hnonempty Hpositive eq_refl eq_refl).
Defined.

(* ------------------------------------------------------------------------- *)
(** ** Single and bulk updates of rows *)

Section UpdateRuns.
Context {world : Type} (up : Upstream world).
Variables docId tableIdOrName : string.

Lemma update_row_run update s :
  coda_update_row up docId tableIdOrName (rowIdOrName update) (values update) s =
    let request := update_request docId tableIdOrName update in
    let (w', answer) := on_updateRow up request (now s) in
    (inr (update_result answer),
     {| now := w'; calls := calls s ++ [CallUpdateRow request] |}).
Proof.
  unfold coda_update_row, coda_update_row_body. run_handler.
  change {| ur_docId := docId; ur_tableIdOrName := tableIdOrName;
            ur_rowIdOrName := rowIdOrName update;
            ur_cells := map (fun entry => {| column := fst entry;
                                             value := snd entry |})
                            (values update) |}
    with (update_request docId tableIdOrName update).
  destruct (on_updateRow up _ (now s)) as [w' [e | resp]]; reflexivity.
Qed.

Lemma update_one_by_one_run updates : forall collected s,
  for_of updates
         (fun update collected =>
            result <- coda_update_row up docId tableIdOrName
                                      (rowIdOrName update) (values update) ;;
            ret (collected ++ [result])%list)
         collected s =
    let (ans, w') := answers up docId tableIdOrName updates (now s) in
    (inr (collected ++ map update_result ans)%list,
     {| now := w';
        calls := calls s
                 ++ map (fun u => CallUpdateRow
                                    (update_request docId tableIdOrName u))
                        updates |}).
Proof.
  induction updates as [ | update updates IH]; intros collected s.
  - simpl. unfold ret. rewrite !app_nil_r. destruct s; reflexivity.
  - cbn [for_of answers]. unfold bind at 1 2. rewrite update_row_run.
    cbv zeta.
    destruct (on_updateRow up _ (now s)) as [w' answer].
    unfold ret at 1. rewrite IH. cbn [now calls].
    destruct (answers up docId tableIdOrName updates w') as [rest w''].
    cbn [map]. rewrite <- !app_assoc. reflexivity.
Qed.

Lemma outcomes_agree updates : forall ans,
  List.length ans = List.length updates ->
  Forall2 agrees (outcomes updates ans) (map update_result ans).
Proof.
  induction updates as [ | update updates IH]; intros [ | answer ans] Hlen;
    try discriminate; [constructor | ].
  unfold outcomes. cbn [combine map fst snd]. constructor.
  - destruct answer as [e | resp]; [right | left]; split; try reflexivity;
      eexists; split; reflexivity.
  - apply IH. now injection Hlen.
Qed.

End UpdateRuns.

(** X3.  Updating rows in bulk and updating them with one [coda_update_row]
    after the other are the same towards the API: the same requests in the
    same order, the same final state, and row by row the same outcome, a
    success with the same data or a failure with the same message.  The only
    difference is the packaging: one report against one result per row. *)
Theorem bulk_update_matches_single_updates :
  forall (world : Type) (up : Upstream world) (w : world)
         (docId tableIdOrName : string) (updates : list RowUpdate),
    snd (run (update_one_by_one up docId tableIdOrName updates) w)
    = snd (run (coda_bulk_update_rows up docId tableIdOrName updates) w)
    /\ exists collected report,
         fst (run (update_one_by_one up docId tableIdOrName updates) w)
         = inr collected
         /\ fst (run (coda_bulk_update_rows up docId tableIdOrName updates) w)
            = inr {| content := [StringifyReport report]; isError := false |}
         /\ Forall2 agrees (results report) collected.
Proof.
  intros world up w docId tableIdOrName updates.
  unfold update_one_by_one, run at 1 3.
  rewrite update_one_by_one_run, run_bulk_update_rows. cbn [now calls].
  pose proof (answers_length up docId tableIdOrName updates w) as Hlen.
  destruct (answers up docId tableIdOrName updates w) as [ans w'].
  cbv zeta. cbn [fst snd] in *. split; [reflexivity | ].
  eexists. eexists. split; [reflexivity | split; [reflexivity | ] ].
  cbn [results app]. now apply outcomes_agree.
Qed.

(* ------------------------------------------------------------------------- *)
(** ** Duplicating a page whose content was read *)

(** X4.  When the source page is read, [coda_duplicate_page] hands
    [createPage] exactly the text that [coda_get_page_content] returns for
    that page, the empty text included, under the new name and in the same
    document; and when [createPage] then rejects, the result is the error
    text with the message of that rejection, after both calls were made. *)
Theorem duplicate_page_forwards_content :
  forall (world : Type) (up : Upstream world) (w w1 : world)
         (docId pageIdOrName newName text : string),
    on_getPageContent up docId pageIdOrName w = (w1, inr (Some text)) ->
    let options :=
      {| cp_docId := docId; cp_name := newName; cp_content := Some text |} in
    fst (run (coda_get_page_content up docId pageIdOrName) w)
    = inr {| content := [Raw text]; isError := false |}
    /\ calls (snd (run (coda_duplicate_page up docId pageIdOrName newName) w))
       = [CallGetPageContent docId pageIdOrName; CallCreatePage options]
    /\ (forall (w2 : world) (e : thrown),
           on_createPage up options w1 = (w2, inl e) ->
           run (coda_duplicate_page up docId pageIdOrName newName) w
           = (inr {| content :=
                       [Raw ("Failed to duplicate page : " ++ error_message e)];
                     isError := true |},
              {| now := w2;
                 calls := [CallGetPageContent docId pageIdOrName;
                           CallCreatePage options] |})).
Proof.
  intros world up w w1 docId pageIdOrName newName text Hread options.
  rewrite run_get_page_content, run_duplicate_page, Hread.
  cbv zeta. fold options. repeat split.
  - destruct (on_createPage up options w1) as [w2 created]. reflexivity.
  - intros w2 e Hcreate. rewrite Hcreate. reflexivity.
Qed.

Lemma duplicate_page_forwards_content_witness :
  on_getPageContent (Mock.upstream (inr (Some ""))) "doc-123" "page-456" 0
  = (1, inr (Some ""))
  /\ calls (snd (run (coda_duplicate_page (Mock.upstream (inr (Some "")))
                        "doc-123" "page-456" "Duplicated Page") 0))
     = [CallGetPageContent "doc-123" "page-456";
        CallCreatePage {| cp_docId := "doc-123";
                          cp_name := "Duplicated Page";
                          cp_content := Some "" |}].
Proof.
  split; [reflexivity | ].
  exact (proj1 (proj2 (duplicate_page_forwards_content
                         nat (Mock.upstream (inr (Some ""))) 0 1
                         "doc-123" "page-456" "Duplicated Page" "" eq_refl))).
Defined.

(* ------------------------------------------------------------------------- *)
(** ** Configuration *)

(** X5.  [getConfig] returns a configuration exactly when [API_KEY] is set to
    a string that is not empty, and the key of the configuration is that
    string; it throws exactly when [API_KEY] is not set or set to the empty
    string.  A configuration with an empty key is never returned. *)
Theorem getConfig_requires_api_key :
  forall env : Env,
    (forall config : Config,
        getConfig env = inr config
        <-> env "API_KEY" = Some (apiKey config) /\ apiKey config <> "")
    /\ ((exists e, getConfig env = inl e)
        <-> env "API_KEY" = None \/ env "API_KEY" = Some "").
Proof.
  intros env. unfold getConfig.
  destruct (env "API_KEY") as [[ | c key] | ]; cbn; split.
  - intros config. split; [discriminate | ]. intros [Hkey Hnonempty].
    injection Hkey as Hkey. now elim Hnonempty.
  - split; [now right | eauto].
  - intros [key']. cbn. split.
    + intros H. injection H as <-. split; [reflexivity | discriminate].
    + intros [H _]. now injection H as <-.
  - split; [intros [e He]; discriminate | intros [H | H]; discriminate].
  - intros config. split; [discriminate | intros [H _]; discriminate].
  - split; [now left | eauto].
Qed.

(* ------------------------------------------------------------------------- *)
(** ** Searching pages *)

Section SearchRuns.
Context {world : Type} (up : Upstream world).
Variable toLowerCase : string -> string.
Variable type_error : json -> thrown.
Variables docId query : string.

#[local] Abbreviation fetch :=
  (fun page : Page => CallGetPageContent docId (page_id page)).

Lemma contents_length pages w :
  List.length (fst (contents up docId pages w)) = List.length pages.
Proof.
  revert w; induction pages as [ | page pages IH]; intros w; simpl.
  - reflexivity.
  - destruct (on_getPageContent up _ _ w) as [w' answer].
    specialize (IH w').
    destruct (contents up docId pages w') as [rest w''].
    simpl in *. now rewrite IH.
Qed.

Lemma search_step_run filteredPages page found s :
  search_step up toLowerCase docId query filteredPages page found s =
    let (w', answer) := on_getPageContent up docId (page_id page) (now s) in
    (inr (found
          ++ if found_by_content toLowerCase query filteredPages page answer
             then [matched_in_content page] else [])%list,
     {| now := w'; calls := calls s ++ [fetch page] |}).
Proof.
  unfold search_step, found_by_content. run_handler.
  destruct (on_getPageContent up _ _ (now s)) as [w' [e | content]]; simpl.
  - now rewrite app_nil_r.
  - destruct (content_matches toLowerCase query content); simpl;
      [ | now rewrite app_nil_r].
    destruct (listed filteredPages page); simpl;
      [now rewrite app_nil_r | reflexivity].
Qed.

(** The loop over the pages never throws: it asks for the content of every
    page, in order, and keeps the pages found by content alone. *)
Lemma search_loop_run filteredPages pages : forall found s,
  for_of pages (search_step up toLowerCase docId query filteredPages) found s =
    let (ans, w') := contents up docId pages (now s) in
    (inr (found
          ++ map matched_in_content
                 (content_only toLowerCase query filteredPages pages ans))%list,
     {| now := w'; calls := calls s ++ map fetch pages |}).
Proof.
  induction pages as [ | page pages IH]; intros found s.
  - simpl. unfold ret. rewrite !app_nil_r. destruct s; reflexivity.
  - cbn [for_of contents]. unfold bind at 1. rewrite search_step_run.
    destruct (on_getPageContent up docId (page_id page) (now s)) as [w' answer].
    rewrite IH. cbn [now calls].
    destruct (contents up docId pages w') as [rest w''].
    cbn [content_only map].
    destruct (found_by_content toLowerCase query filteredPages page answer);
      cbn [map]; rewrite <- !app_assoc; reflexivity.
Qed.

Lemma run_search_pages includeContent w :
  run (coda_search_pages up toLowerCase type_error docId query includeContent) w =
    let options :=
      {| lp_docId := docId; lp_limit := None; lp_pageToken := None |} in
    let failed data :=
      (inr (error_result "Failed to search pages"
                         (error_message (type_error data)))
       : thrown + CallToolResult) in
    let (w1, answer) := on_listPages up options w in
    match answer with
    | inl e =>
        (inr (error_result "Failed to search pages" (error_message e)),
         {| now := w1; calls := [CallListPages options] |})
    | inr data =>
        match named_items data with
        | None => (failed data, {| now := w1; calls := [CallListPages options] |})
        | Some items =>
            match includeContent with
            | Some true =>
                match page_list data with
                | None =>
                    (failed data,
                     {| now := w1; calls := [CallListPages options] |})
                | Some pages =>
                    let named :=
                      filter (fun page =>
                                matches toLowerCase query (page_name page))
                             pages in
                    let (ans, w2) := contents up docId pages w1 in
                    (inr (ok (StringifyData
                                (search_report
                                   (map page_json named
                                    ++ map matched_in_content
                                           (content_only toLowerCase query named
                                                         pages ans))
                                   query true))),
                     {| now := w2;
                        calls := CallListPages options :: map fetch pages |})
                end
            | _ =>
                (inr (ok (StringifyData
                            (search_report
                               (map fst
                                    (filter (fun item =>
                                               matches toLowerCase query (snd item))
                                            items))
                               query false))),
                 {| now := w1; calls := [CallListPages options] |})
            end
        end
    end.
Proof.
  unfold coda_search_pages, coda_search_pages_body, run.
  unfold try_catch, bind at 1, listPages, await_call. cbn [now calls app].
  destruct (on_listPages up _ w) as [w1 [e | data]]; [reflexivity | ].
  destruct (named_items data) as [items | ]; [ | reflexivity].
  destruct includeContent as [[ | ] | ]; try reflexivity.
  destruct (page_list data) as [pages | ]; [ | reflexivity].
  unfold bind. rewrite search_loop_run. cbn [now calls].
  destruct (contents up docId pages w1) as [ans w2]. reflexivity.
Qed.

End SearchRuns.

(** A page read from an item is that item, with its name and its id. *)
Lemma as_page_sound item page :
  as_page item = Some page ->
  item = page_json page
  /\ name_of item = Some (page_name page)
  /\ lookup "id" (page_fields page) = Some (JString (page_id page)).
Proof.
  unfold as_page, name_of, page_json.
  destruct item as [ | | | | | fields]; try discriminate.
  destruct (lookup "id" fields) as [[ | | | id | | ] | ] eqn:Eid;
    try discriminate.
  destruct (lookup "name" fields) as [[ | | | name | | ] | ]; try discriminate.
  intros H. injection H as <-. cbn. now rewrite Eid.
Qed.

Lemma as_pages_named items : forall pages,
  as_pages items = Some pages ->
  with_names items
  = Some (map (fun page => (page_json page, page_name page)) pages)
  /\ Forall (fun page =>
               lookup "id" (page_fields page) = Some (JString (page_id page)))
            pages.
Proof.
  induction items as [ | item items IH]; intros pages Hpages;
    cbn [as_pages] in Hpages.
  - injection Hpages as <-. split; [reflexivity | constructor].
  - destruct (as_page item) as [page | ] eqn:Eitem; [ | discriminate].
    destruct (as_pages items) as [rest | ]; [ | discriminate].
    injection Hpages as <-.
    destruct (as_page_sound item page Eitem) as (-> & Hname & Hid).
    destruct (IH rest eq_refl) as [Hrest Hids].
    cbn [with_names map]. rewrite Hname, Hrest.
    split; [reflexivity | now constructor].
Qed.

(** A list of pages as the SDK declares them is a list of named items. *)
Lemma page_list_named data pages :
  page_list data = Some pages ->
  named_items data
  = Some (map (fun page => (page_json page, page_name page)) pages)
  /\ Forall (fun page =>
               lookup "id" (page_fields page) = Some (JString (page_id page)))
            pages.
Proof.
  unfold page_list, named_items.
  destruct data as [ | | | | | fields]; try discriminate.
  destruct (lookup "items" fields) as [[ | | | | items | ] | ]; try discriminate.
  apply as_pages_named.
Qed.

Lemma named_filter (keep : string -> bool) (pages : list Page) :
  map fst (filter (fun item : json * string => keep (snd item))
                  (map (fun page => (page_json page, page_name page)) pages))
  = map page_json (filter (fun page => keep (page_name page)) pages).
Proof.
  induction pages as [ | page pages IH]; [reflexivity | ].
  cbn [map filter fst snd]. destruct (keep (page_name page)); cbn [map fst];
    now rewrite IH.
Qed.

Section SearchFacts.
Variable toLowerCase : string -> string.
Variable query : string.

#[local] Abbreviation by_name :=
  (fun page : Page => matches toLowerCase query (page_name page)).

Lemma content_only_answer named pages : forall ans page,
  In page (content_only toLowerCase query named pages ans) ->
  exists answer,
    In (page, answer) (combine pages ans)
    /\ found_by_content toLowerCase query named page answer = true.
Proof.
  induction pages as [ | first pages IH]; intros [ | answer ans] page Hin;
    try contradiction.
  cbn [content_only] in Hin.
  destruct (found_by_content toLowerCase query named first answer) eqn:Efound.
  - destruct Hin as [-> | Hin].
    + exists answer. split; [now left | exact Efound].
    + destruct (IH ans page Hin) as (a & Ha & Hfound).
      exists a. split; [now right | exact Hfound].
  - destruct (IH ans page Hin) as (a & Ha & Hfound).
    exists a. split; [now right | exact Hfound].
Qed.

Lemma found_by_content_inv named page answer :
  found_by_content toLowerCase query named page answer = true ->
  listed named page = false
  /\ exists c text,
       answer = inr (Some (String c text))
       /\ matches toLowerCase query (String c text) = true.
Proof.
  unfold found_by_content, content_matches.
  destruct answer as [e | [[ | c text] | ]]; try discriminate.
  cbn [truthy andb]. intros H. apply andb_true_iff in H as [Hmatch Hlisted].
  split; [now apply negb_true_iff | eauto].
Qed.

Lemma named_is_listed pages page :
  In page pages -> by_name page = true -> listed (filter by_name pages) page = true.
Proof.
  intros Hin Hname. unfold listed. apply existsb_exists.
  exists page. split; [now apply filter_In | apply String.eqb_refl].
Qed.

(** Each listed page is found at most once, by name or by content. *)
Lemma found_once named pages :
  (forall page, In page pages -> by_name page = true -> listed named page = true) ->
  forall ans,
    List.length (filter by_name pages)
    + List.length (content_only toLowerCase query named pages ans)
    <= List.length pages.
Proof.
  induction pages as [ | page pages IH]; intros Hlisted ans; [simpl; lia | ].
  assert (Hrest : forall p, In p pages -> by_name p = true -> listed named p = true)
    by (intros p Hp; apply Hlisted; now right).
  destruct ans as [ | answer ans].
  - cbn [content_only]. rewrite Nat.add_0_r. apply filter_length_le.
  - cbn [filter content_only List.length].
    specialize (IH Hrest ans).
    destruct (by_name page) eqn:Ename.
    + assert (Hfound : found_by_content toLowerCase query named page answer = false).
      { unfold found_by_content. rewrite (Hlisted page (or_introl eq_refl) Ename).
        destruct answer; [reflexivity | apply andb_false_r]. }
      rewrite Hfound. cbn [List.length]. lia.
    + destruct (found_by_content toLowerCase query named page answer);
        cbn [List.length]; lia.
Qed.

Lemma content_only_in named pages : forall ans page,
  In page (content_only toLowerCase query named pages ans) -> In page pages.
Proof.
  intros ans page Hin.
  destruct (content_only_answer named pages ans page Hin) as (a & Ha & _).
  eapply in_combine_l; eassumption.
Qed.

Lemma content_only_distinct named pages :
  NoDup (map page_id pages) ->
  forall ans,
    NoDup (map page_id (content_only toLowerCase query named pages ans)).
Proof.
  induction pages as [ | page pages IH]; intros Hdistinct [ | answer ans];
    try constructor.
  cbn [map] in Hdistinct. apply NoDup_cons_iff in Hdistinct as [Hfresh Hrest].
  cbn [content_only].
  destruct (found_by_content toLowerCase query named page answer);
    [ | now apply IH].
  cbn [map]. constructor; [ | now apply IH].
  intros Hin. apply Hfresh. apply in_map_iff in Hin as (other & Hid & Hin).
  apply in_map_iff. exists other. split; [exact Hid | ].
  eapply content_only_in; eassumption.
Qed.

Lemma named_distinct (pages : list Page) :
  NoDup (map page_id pages) -> NoDup (map page_id (filter by_name pages)).
Proof.
  induction pages as [ | page pages IH]; intros Hdistinct; [constructor | ].
  cbn [map] in Hdistinct. apply NoDup_cons_iff in Hdistinct as [Hfresh Hrest].
  cbn [filter]. destruct (by_name page); [ | now apply IH].
  cbn [map]. constructor; [ | now apply IH].
  intros Hin. apply Hfresh. apply in_map_iff in Hin as (other & Hid & Hin).
  apply in_map_iff. exists other. split; [exact Hid | ].
  now apply filter_In in Hin.
Qed.

Lemma not_listed named page :
  listed named page = false ->
  ~ In (page_id page) (map page_id named).
Proof.
  unfold listed. intros Hlisted Hin.
  apply in_map_iff in Hin as (other & Hid & Hin).
  assert (Hex : existsb (fun p => String.eqb (page_id p) (page_id page)) named
                = true).
  { apply existsb_exists. exists other. split; [exact Hin | ].
    rewrite Hid. apply String.eqb_refl. }
  congruence.
Qed.

End SearchFacts.

Lemma content_only_complete toLowerCase query named pages : forall ans page answer,
  In (page, answer) (combine pages ans) ->
  found_by_content toLowerCase query named page answer = true ->
  In page (content_only toLowerCase query named pages ans).
Proof.
  induction pages as [ | first pages IH]; intros [ | a ans] page answer Hin Hfound;
    try contradiction.
  cbn [combine] in Hin. cbn [content_only]. destruct Hin as [Heq | Hin].
  - injection Heq as -> ->. rewrite Hfound. now left.
  - destruct (found_by_content toLowerCase query named first a);
      [right | ]; eapply IH; eassumption.
Qed.

(** X6.  Without [includeContent] (absent or false), [coda_search_pages]
    makes the one call to [listPages] and never asks for the content of a
    page; it returns the listed pages whose lower-cased name includes the
    lower-cased query, in the order of the list and as they were listed,
    with their number as [totalFound]. *)
Theorem search_pages_by_name_only :
  forall (world : Type) (up : Upstream world)
         (toLowerCase : string -> string) (type_error : json -> thrown)
         (w w1 : world) (docId query : string) (includeContent : option bool)
         (data : json) (pages : list Page),
    includeContent <> Some true ->
    on_listPages up {| lp_docId := docId; lp_limit := None; lp_pageToken := None |} w
    = (w1, inr data) ->
    page_list data = Some pages ->
    let named :=
      filter (fun page => includes (toLowerCase (page_name page))
                                   (toLowerCase query)) pages in
    run (coda_search_pages up toLowerCase type_error docId query includeContent) w
    = (inr {| content :=
                [StringifyData
                   (JObject [("items", JArray (map page_json named));
                             ("searchQuery", JString query);
                             ("searchedContent", JBool false);
                             ("totalFound",
                              JNumber (Z.of_nat (List.length named)))])];
              isError := false |},
       {| now := w1;
          calls := [CallListPages {| lp_docId := docId; lp_limit := None;
                                     lp_pageToken := None |}] |}).
Proof.
  intros world up toLowerCase type_error w w1 docId query includeContent
         data pages Hinclude Hlist Hpages named.
  rewrite run_search_pages. cbv zeta. rewrite Hlist.
  destruct (page_list_named data pages Hpages) as [Hnamed _]. rewrite Hnamed.
  unfold search_report.
  rewrite (named_filter (fun name => matches toLowerCase query name)).
  rewrite length_map.
  destruct includeContent as [[ | ] | ]; [now elim Hinclude | | ]; reflexivity.
Qed.

Lemma search_pages_by_name_only_witness :
  (None : option bool) <> Some true
  /\ on_listPages (MockSearch.upstream MockSearch.pages MockSearch.content_of)
       {| lp_docId := "doc-123"; lp_limit := None; lp_pageToken := None |} 0
     = (1, inr MockSearch.pages)
  /\ page_list MockSearch.pages = Some MockSearch.listed_pages
  /\ run (coda_search_pages
            (MockSearch.upstream MockSearch.pages MockSearch.content_of)
            MockSearch.lower MockSearch.type_error "doc-123" "budget" None) 0
     = (inr {| content :=
                 [StringifyData
                    (JObject [("items",
                               JArray [MockSearch.page "p2" "Budget 2024"]);
                              ("searchQuery", JString "budget");
                              ("searchedContent", JBool false);
                              ("totalFound", JNumber 1)])];
               isError := false |},
        {| now := 1;
           calls := [CallListPages {| lp_docId := "doc-123"; lp_limit := None;
                                      lp_pageToken := None |}] |}).
Proof.
  assert (Hinclude : (None : option bool) <> Some true) by discriminate.
  split; [exact Hinclude | split; [reflexivity | split; [reflexivity | ] ] ].
  exact (search_pages_by_name_only
           nat (MockSearch.upstream MockSearch.pages MockSearch.content_of)
           MockSearch.lower MockSearch.type_error 0 1 "doc-123" "budget" None
           MockSearch.pages MockSearch.listed_pages Hinclude eq_refl eq_refl).
Defined.

(** X7.  With [includeContent] true, [coda_search_pages] asks for the content
    of every listed page, in the order of the list, the pages already found
    by name included; whatever these requests answer, rejections included,
    the result is a search report and not an error. *)
Theorem search_pages_fetches_every_page :
  forall (world : Type) (up : Upstream world)
         (toLowerCase : string -> string) (type_error : json -> thrown)
         (w w1 : world) (docId query : string)
         (data : json) (pages : list Page),
    on_listPages up {| lp_docId := docId; lp_limit := None; lp_pageToken := None |} w
    = (w1, inr data) ->
    page_list data = Some pages ->
    calls (snd (run (coda_search_pages up toLowerCase type_error
                                       docId query (Some true)) w))
    = CallListPages {| lp_docId := docId; lp_limit := None; lp_pageToken := None |}
      :: map (fun page => CallGetPageContent docId (page_id page)) pages
    /\ exists found,
         fst (run (coda_search_pages up toLowerCase type_error
                                     docId query (Some true)) w)
         = inr {| content := [StringifyData (search_report found query true)];
                  isError := false |}.
Proof.
  intros world up toLowerCase type_error w w1 docId query data pages
         Hlist Hpages.
  rewrite run_search_pages. cbv zeta. rewrite Hlist.
  destruct (page_list_named data pages Hpages) as [Hnamed _].
  rewrite Hnamed, Hpages.
  destruct (contents up docId pages w1) as [ans w2]. cbn [fst snd calls].
  split; [reflexivity | eexists; reflexivity].
Qed.

Lemma search_pages_fetches_every_page_witness :
  on_listPages (MockSearch.upstream MockSearch.pages MockSearch.content_of)
    {| lp_docId := "doc-123"; lp_limit := None; lp_pageToken := None |} 0
  = (1, inr MockSearch.pages)
  /\ page_list MockSearch.pages = Some MockSearch.listed_pages
  /\ calls (snd (run (coda_search_pages
                        (MockSearch.upstream MockSearch.pages
                                             MockSearch.content_of)
                        MockSearch.lower MockSearch.type_error
                        "doc-123" "budget" (Some true)) 0))
     = [CallListPages {| lp_docId := "doc-123"; lp_limit := None;
                         lp_pageToken := None |};
        CallGetPageContent "doc-123" "p1";
        CallGetPageContent "doc-123" "p2";
        CallGetPageContent "doc-123" "p3"].
Proof.
  split; [reflexivity | split; [reflexivity | ] ].
  exact (proj1 (search_pages_fetches_every_page
                  nat (MockSearch.upstream MockSearch.pages MockSearch.content_of)
                  MockSearch.lower MockSearch.type_error 0 1 "doc-123" "budget"
                  MockSearch.pages MockSearch.listed_pages eq_refl eq_refl)).
Defined.

(** X8.  With [includeContent] true, the report lists the pages found by
    name, as they were listed, followed by the pages found by content alone,
    each tagged [matchedInContent: true].  A listed page is found by content
    alone exactly when one of its content requests resolved to a text that is
    not empty and includes the query in lower case, and no page found by name
    has its id; so a page whose request was rejected, or whose content is
    empty or undefined, is found only if its name matches, and a page found
    by content never has a matching name. *)
Theorem search_pages_found_by_content :
  forall (world : Type) (up : Upstream world)
         (toLowerCase : string -> string) (type_error : json -> thrown)
         (w w1 w2 : world) (docId query : string)
         (data : json) (pages : list Page)
         (ans : list (thrown + option string)),
    on_listPages up {| lp_docId := docId; lp_limit := None; lp_pageToken := None |} w
    = (w1, inr data) ->
    page_list data = Some pages ->
    contents up docId pages w1 = (ans, w2) ->
    let named :=
      filter (fun page => matches toLowerCase query (page_name page)) pages in
    exists extra,
      fst (run (coda_search_pages up toLowerCase type_error
                                  docId query (Some true)) w)
      = inr {| content :=
                 [StringifyData
                    (search_report (map page_json named
                                    ++ map matched_in_content extra)
                                   query true)];
               isError := false |}
      /\ (forall page,
             In page extra
             <-> listed named page = false
                 /\ exists text,
                      In (page, inr (Some text)) (combine pages ans)
                      /\ text <> ""
                      /\ matches toLowerCase query text = true)
      /\ (forall page,
             In page extra ->
             In page pages /\ matches toLowerCase query (page_name page) = false).
Proof.
  intros world up toLowerCase type_error w w1 w2 docId query data pages ans
         Hlist Hpages Hcontents named.
  exists (content_only toLowerCase query named pages ans).
  rewrite run_search_pages. cbv zeta. rewrite Hlist.
  destruct (page_list_named data pages Hpages) as [Hitems _].
  rewrite Hitems, Hpages, Hcontents.
  fold named. split; [reflexivity | ].
  assert (Hiff : forall page,
             In page (content_only toLowerCase query named pages ans)
             <-> listed named page = false
                 /\ exists text,
                      In (page, inr (Some text)) (combine pages ans)
                      /\ text <> ""
                      /\ matches toLowerCase query text = true).
  { intros page. split.
    - intros Hin.
      destruct (content_only_answer _ _ _ _ _ _ Hin) as (answer & Hanswer & Hfound).
      apply found_by_content_inv in Hfound as (Hlisted & c & text & -> & Hmatch).
      split; [exact Hlisted | ].
      exists (String c text). repeat split; trivial. discriminate.
    - intros (Hlisted & text & Hanswer & Hnonempty & Hmatch).
      eapply content_only_complete; [exact Hanswer | ].
      unfold found_by_content, content_matches. rewrite Hlisted, Hmatch.
      destruct text; [now elim Hnonempty | reflexivity]. }
  split; [exact Hiff | ].
  intros page Hin. pose proof (content_only_in _ _ _ _ _ _ Hin) as Hpage.
  split; [exact Hpage | ].
  apply Hiff in Hin as [Hlisted _].
  destruct (matches toLowerCase query (page_name page)) eqn:Hname; [ | reflexivity].
  unfold named in Hlisted.
  rewrite (named_is_listed toLowerCase query pages page Hpage Hname) in Hlisted.
  discriminate.
Qed.

Lemma search_pages_found_by_content_witness :
  on_listPages (MockSearch.upstream MockSearch.pages MockSearch.content_of)
    {| lp_docId := "doc-123"; lp_limit := None; lp_pageToken := None |} 0
  = (1, inr MockSearch.pages)
  /\ page_list MockSearch.pages = Some MockSearch.listed_pages
  /\ contents (MockSearch.upstream MockSearch.pages MockSearch.content_of)
              "doc-123" MockSearch.listed_pages 1
     = ([inr (Some "Plan and BUDGET"); inl (ErrorObject "Export failed");
         inr (Some "")], 4)
  /\ exists extra,
       fst (run (coda_search_pages
                   (MockSearch.upstream MockSearch.pages MockSearch.content_of)
                   MockSearch.lower MockSearch.type_error
                   "doc-123" "budget" (Some true)) 0)
       = inr {| content :=
                  [StringifyData
                     (search_report
                        ([MockSearch.page "p2" "Budget 2024"]
                         ++ map matched_in_content extra)
                        "budget" true)];
                isError := false |}.
Proof.
  split; [reflexivity | split; [reflexivity | split; [reflexivity | ] ] ].
  destruct (search_pages_found_by_content
              nat (MockSearch.upstream MockSearch.pages MockSearch.content_of)
              MockSearch.lower MockSearch.type_error 0 1 4 "doc-123" "budget"
              MockSearch.pages MockSearch.listed_pages
              [inr (Some "Plan and BUDGET"); inl (ErrorObject "Export failed");
               inr (Some "")]
              eq_refl eq_refl eq_refl) as (extra & Hrun & _).
  exists extra. exact Hrun.
Defined.

(** X9.  Whatever [includeContent] is, the report never counts more pages
    than were listed: a listed page is found at most once, by name or by
    content. *)
Theorem search_pages_total_bounded :
  forall (world : Type) (up : Upstream world)
         (toLowerCase : string -> string) (type_error : json -> thrown)
         (w w1 : world) (docId query : string) (includeContent : option bool)
         (data : json) (pages : list Page),
    on_listPages up {| lp_docId := docId; lp_limit := None; lp_pageToken := None |} w
    = (w1, inr data) ->
    page_list data = Some pages ->
    exists found searched,
      fst (run (coda_search_pages up toLowerCase type_error
                                  docId query includeContent) w)
      = inr {| content :=
                 [StringifyData
                    (JObject [("items", JArray found);
                              ("searchQuery", JString query);
                              ("searchedContent", JBool searched);
                              ("totalFound",
                               JNumber (Z.of_nat (List.length found)))])];
               isError := false |}
      /\ List.length found <= List.length pages.
Proof.
  intros world up toLowerCase type_error w w1 docId query includeContent
         data pages Hlist Hpages.
  rewrite run_search_pages. cbv zeta. rewrite Hlist.
  destruct (page_list_named data pages Hpages) as [Hnamed _].
  rewrite Hnamed, Hpages.
  rewrite (named_filter (fun name => matches toLowerCase query name)).
  destruct includeContent as [[ | ] | ].
  - destruct (contents up docId pages w1) as [ans w2].
    eexists. exists true. split; [reflexivity | ].
    rewrite length_app, !length_map. apply found_once.
    intros page Hin Hname. now apply named_is_listed.
  - eexists. exists false. split; [reflexivity | ].
    rewrite length_map. apply filter_length_le.
  - eexists. exists false. split; [reflexivity | ].
    rewrite length_map. apply filter_length_le.
Qed.

Lemma search_pages_total_bounded_witness :
  on_listPages (MockSearch.upstream MockSearch.pages MockSearch.content_of)
    {| lp_docId := "doc-123"; lp_limit := None; lp_pageToken := None |} 0
  = (1, inr MockSearch.pages)
  /\ page_list MockSearch.pages = Some MockSearch.listed_pages
  /\ exists found searched,
       fst (run (coda_search_pages
                   (MockSearch.upstream MockSearch.pages MockSearch.content_of)
                   MockSearch.lower MockSearch.type_error
                   "doc-123" "budget" (Some true)) 0)
       = inr {| content :=
                  [StringifyData
                     (JObject [("items", JArray found);
                               ("searchQuery", JString "budget");
                               ("searchedContent", JBool searched);
                               ("totalFound",
                                JNumber (Z.of_nat (List.length found)))])];
                isError := false |}
       /\ List.length found <= List.length MockSearch.listed_pages.
Proof.
  split; [reflexivity | split; [reflexivity | ] ].
  exact (search_pages_total_bounded
           nat (MockSearch.upstream MockSearch.pages MockSearch.content_of)
           MockSearch.lower MockSearch.type_error 0 1 "doc-123" "budget"
           (Some true) MockSearch.pages MockSearch.listed_pages eq_refl eq_refl).
Defined.

Lemma lookup_tagged key (fields : list (string * json)) :
  key <> "matchedInContent" ->
  lookup key (set_field "matchedInContent" (JBool true) fields)
  = lookup key fields.
Proof.
  intros Hkey. induction fields as [ | [k old] fields IH];
    cbn [set_field lookup].
  - destruct (String.eqb_spec "matchedInContent" key); [congruence | reflexivity].
  - destruct (String.eqb_spec k "matchedInContent") as [-> | Hk]; cbn [lookup].
    + destruct (String.eqb_spec "matchedInContent" key);
        [congruence | reflexivity].
    + now rewrite IH.
Qed.

(** The ids the report shows are the ids of the pages it was made from. *)
Lemma reported_ids (named extra : list Page) :
  Forall (fun page =>
            lookup "id" (page_fields page) = Some (JString (page_id page)))
         (named ++ extra) ->
  map reported_id (map page_json named ++ map matched_in_content extra)
  = map (fun id => Some (JString id)) (map page_id (named ++ extra)).
Proof.
  intros Hids. apply Forall_app in Hids as [Hnamed Hextra].
  rewrite !map_app, !map_map. f_equal.
  - induction Hnamed as [ | page named Hid _ IH]; [reflexivity | ].
    cbn [map]. f_equal; [ | exact IH].
    unfold reported_id, page_json. exact Hid.
  - induction Hextra as [ | page extra Hid _ IH]; [reflexivity | ].
    cbn [map]. f_equal; [ | exact IH].
    unfold reported_id, matched_in_content.
    rewrite lookup_tagged by discriminate. exact Hid.
Qed.

Lemma distinct_ids_as_json (ids : list string) :
  NoDup ids -> NoDup (map (fun id => Some (JString id)) ids).
Proof.
  induction 1 as [ | id ids Hfresh _ IH]; cbn [map]; constructor; trivial.
  intros Hin. apply in_map_iff in Hin as (other & Heq & Hin).
  injection Heq as ->. contradiction.
Qed.

Lemma Forall_sublist {A : Type} (P : A -> Prop) (all part : list A) :
  Forall P all -> (forall x, In x part -> In x all) -> Forall P part.
Proof.
  intros Hall Hpart. apply Forall_forall. intros x Hx.
  rewrite Forall_forall in Hall. auto.
Qed.

(** X10.  When the listed pages have distinct ids, the items of the report
    have distinct ids too, each the id of a listed page: no page is reported
    twice, whether the content is searched or not. *)
Theorem search_pages_distinct_ids :
  forall (world : Type) (up : Upstream world)
         (toLowerCase : string -> string) (type_error : json -> thrown)
         (w w1 : world) (docId query : string) (includeContent : option bool)
         (data : json) (pages : list Page),
    on_listPages up {| lp_docId := docId; lp_limit := None; lp_pageToken := None |} w
    = (w1, inr data) ->
    page_list data = Some pages ->
    NoDup (map page_id pages) ->
    exists found searched,
      fst (run (coda_search_pages up toLowerCase type_error
                                  docId query includeContent) w)
      = inr {| content :=
                 [StringifyData
                    (JObject [("items", JArray found);
                              ("searchQuery", JString query);
                              ("searchedContent", JBool searched);
                              ("totalFound",
                               JNumber (Z.of_nat (List.length found)))])];
               isError := false |}
      /\ NoDup (map reported_id found)
      /\ (forall item,
             In item found ->
             exists id,
               reported_id item = Some (JString id)
               /\ In id (map page_id pages)).
Proof.
  intros world up toLowerCase type_error w w1 docId query includeContent
         data pages Hlist Hpages Hdistinct.
  rewrite run_search_pages. cbv zeta. rewrite Hlist.
  destruct (page_list_named data pages Hpages) as [Hitems Hids].
  rewrite Hitems, Hpages.
  rewrite (named_filter (fun name => matches toLowerCase query name)).
  set (named := filter (fun page => matches toLowerCase query (page_name page))
                       pages).
  assert (Hnamed : NoDup (map page_id named)) by now apply named_distinct.
  assert (Hsub : forall page, In page named -> In page pages)
    by (intros page Hin; now apply filter_In in Hin).
  assert (Hshape : forall extra,
             (forall page, In page extra -> In page pages) ->
             NoDup (map page_id (named ++ extra)) ->
             let found := (map page_json named ++ map matched_in_content extra)%list in
             NoDup (map reported_id found)
             /\ (forall item,
                    In item found ->
                    exists id,
                      reported_id item = Some (JString id)
                      /\ In id (map page_id pages))).
  { intros extra Hextra Hnodup found.
    assert (Hsound : Forall (fun page =>
                               lookup "id" (page_fields page)
                               = Some (JString (page_id page)))
                            (named ++ extra)).
    { apply (Forall_sublist _ pages); [exact Hids | ].
      intros page Hin. apply in_app_or in Hin as [Hin | Hin]; auto. }
    pose proof (reported_ids named extra Hsound) as Hreported.
    fold found in Hreported. split.
    - rewrite Hreported. now apply distinct_ids_as_json.
    - intros item Hin.
      apply (in_map reported_id) in Hin. rewrite Hreported in Hin.
      apply in_map_iff in Hin as (id & Hid & Hin).
      exists id. split; [now symmetry | ].
      apply in_map_iff in Hin as (page & <- & Hin).
      apply in_map. apply in_app_or in Hin as [Hin | Hin]; auto. }
  destruct includeContent as [[ | ] | ].
  - destruct (contents up docId pages w1) as [ans w2].
    set (extra := content_only toLowerCase query named pages ans).
    eexists. exists true. split; [reflexivity | ].
    apply (Hshape extra).
    + intros page Hin. eapply content_only_in; exact Hin.
    + rewrite map_app. apply NoDup_app; trivial.
      * now apply content_only_distinct.
      * intros id Hid Hextra.
        apply in_map_iff in Hextra as (page & <- & Hin).
        destruct (content_only_answer _ _ _ _ _ _ Hin) as (answer & _ & Hfound).
        apply found_by_content_inv in Hfound as [Hlisted _].
        now apply (not_listed named page Hlisted).
  - eexists. exists false. split; [reflexivity | ].
    pose proof (Hshape []) as H. cbn [map] in H.
    rewrite !app_nil_r in H. apply H; [intros page [] | exact Hnamed].
  - eexists. exists false. split; [reflexivity | ].
    pose proof (Hshape []) as H. cbn [map] in H.
    rewrite !app_nil_r in H. apply H; [intros page [] | exact Hnamed].
Qed.

Lemma search_pages_distinct_ids_witness :
  on_listPages (MockSearch.upstream MockSearch.pages MockSearch.content_of)
    {| lp_docId := "doc-123"; lp_limit := None; lp_pageToken := None |} 0
  = (1, inr MockSearch.pages)
  /\ page_list MockSearch.pages = Some MockSearch.listed_pages
  /\ NoDup (map page_id MockSearch.listed_pages)
  /\ exists found searched,
       fst (run (coda_search_pages
                   (MockSearch.upstream MockSearch.pages MockSearch.content_of)
                   MockSearch.lower MockSearch.type_error
                   "doc-123" "budget" (Some true)) 0)
       = inr {| content :=
                  [StringifyData
                     (JObject [("items", JArray found);
                               ("searchQuery", JString "budget");
                               ("searchedContent", JBool searched);
                               ("totalFound",
                                JNumber (Z.of_nat (List.length found)))])];
                isError := false |}
       /\ NoDup (map reported_id found)
       /\ (forall item,
              In item found ->
              exists id,
                reported_id item = Some (JString id)
                /\ In id (map page_id MockSearch.listed_pages)).
Proof.
  assert (Hdistinct : NoDup (map page_id MockSearch.listed_pages)).
  { repeat constructor; cbn; intuition discriminate. }
  split; [reflexivity | split; [reflexivity | split; [exact Hdistinct | ] ] ].
  exact (search_pages_distinct_ids
           nat (MockSearch.upstream MockSearch.pages MockSearch.content_of)
           MockSearch.lower MockSearch.type_error 0 1 "doc-123" "budget"
           (Some true) MockSearch.pages MockSearch.listed_pages
           eq_refl eq_refl Hdistinct).
Defined.

Lemma lookup_set_field key v fields :
  lookup key (set_field key v fields) = Some v.
Proof.
  induction fields as [ | [k old] fields IH]; cbn [set_field lookup].
  - now rewrite String.eqb_refl.
  - destruct (String.eqb k key) eqn:Ek; cbn [lookup]; rewrite Ek; trivial.
Qed.

Lemma lookup_set_field_other key v other fields :
  other <> key ->
  lookup other (set_field key v fields) = lookup other fields.
Proof.
  intros Hother. induction fields as [ | [k old] fields IH];
    cbn [set_field lookup].
  - destruct (String.eqb_spec key other); [congruence | reflexivity].
  - destruct (String.eqb_spec k key) as [-> | Hk]; cbn [lookup].
    + destruct (String.eqb_spec key other); [congruence | reflexivity].
    + now rewrite IH.
Qed.

Lemma set_field_new key v fields :
  lookup key fields = None ->
  set_field key v fields = (fields ++ [(key, v)])%list.
Proof.
  induction fields as [ | [k old] fields IH]; cbn [set_field lookup app];
    [reflexivity | ].
  destruct (String.eqb k key); [discriminate | ].
  intros Hnone. now rewrite IH.
Qed.

(** X11.  The copy of a page that is tagged as matched in content has the
    property [matchedInContent] set to true and every other property as the
    page has it, its id and its name among them; when the page had no such
    property, the copy is the page with the tag added as its last
    property. *)
Theorem matched_in_content_tags_copy :
  forall page : Page,
    exists fields,
      matched_in_content page = JObject fields
      /\ lookup "matchedInContent" fields = Some (JBool true)
      /\ (forall key, key <> "matchedInContent" ->
                      lookup key fields = lookup key (page_fields page))
      /\ (lookup "matchedInContent" (page_fields page) = None ->
          fields = (page_fields page ++ [("matchedInContent", JBool true)])%list).
Proof.
  intros page. eexists. split; [reflexivity | ]. repeat split.
  - apply lookup_set_field.
  - intros key Hkey. now apply lookup_set_field_other.
  - apply set_field_new.
Qed.

(** X12.  When [listPages] rejects, [coda_search_pages] asks for no content,
    whatever [includeContent] is, and returns the error text with the message
    of that rejection. *)
Theorem search_pages_list_failure :
  forall (world : Type) (up : Upstream world)
         (toLowerCase : string -> string) (type_error : json -> thrown)
         (w w1 : world) (docId query : string) (includeContent : option bool)
         (e : thrown),
    on_listPages up {| lp_docId := docId; lp_limit := None; lp_pageToken := None |} w
    = (w1, inl e) ->
    run (coda_search_pages up toLowerCase type_error docId query includeContent) w
    = (inr {| content := [Raw ("Failed to search pages : " ++ error_message e)];
              isError := true |},
       {| now := w1;
          calls := [CallListPages {| lp_docId := docId; lp_limit := None;
                                     lp_pageToken := None |}] |}).
Proof.
  intros world up toLowerCase type_error w w1 docId query includeContent e Hlist.
  rewrite run_search_pages. cbv zeta. rewrite Hlist. reflexivity.
Qed.

Lemma search_pages_list_failure_witness :
  on_listPages MockSearch.denied
               {| lp_docId := "doc-123"; lp_limit := None; lp_pageToken := None |} 0
  = (1, inl (ErrorObject "Access denied"))
  /\ run (coda_search_pages MockSearch.denied
                            MockSearch.lower MockSearch.type_error
                            "doc-123" "budget" (Some true)) 0
     = (inr {| content := [Raw "Failed to search pages : Access denied"];
               isError := true |},
        {| now := 1;
           calls := [CallListPages {| lp_docId := "doc-123"; lp_limit := None;
                                      lp_pageToken := None |}] |}).
Proof.
  split; [reflexivity | ].
  exact (search_pages_list_failure
           nat MockSearch.denied MockSearch.lower MockSearch.type_error 0 1
           "doc-123" "budget" (Some true) (ErrorObject "Access denied") eq_refl).
Defined.

(* ------------------------------------------------------------------------- *)
(** ** Splitting what was joined *)

Lemma lines_as_chunks (lines : list string) (first : string) :
  first :: lines
  = lines_of (map (fun line => (line, line_feed)) (removelast (first :: lines)))
             (List.last (first :: lines) "").
Proof.
  revert first. induction lines as [ | next lines IH]; intros first;
    [reflexivity | ].
  change (removelast (first :: next :: lines))
    with (first :: removelast (next :: lines)).
  change (List.last (first :: next :: lines) "")
    with (List.last (next :: lines) "").
  unfold lines_of in *. cbn [map app fst]. now rewrite <- IH.
Qed.

(** X13.  Splitting at line breaks undoes joining with line feeds: lines that
    hold no line feed and do not end in a carriage return, joined by line
    feeds and split again, are the same lines. *)
Theorem split_join_round_trip :
  forall lines : list string,
    lines <> [] ->
    Forall (fun line => contains LF line = false /\ ends_with CR line = false)
           lines ->
    split_line_breaks (join line_feed lines) = lines.
Proof.
  intros [ | first lines] Hnonempty Hlines; [congruence | ].
  rewrite (lines_as_chunks lines first) at 2.
  rewrite (lines_as_chunks lines first) at 1.
  set (chunks := map (fun line => (line, line_feed))
                     (removelast (first :: lines))).
  assert (Hsame : normalized line_feed chunks = chunks).
  { unfold normalized, chunks. rewrite map_map. reflexivity. }
  rewrite join_lines_of, Hsame.
  assert (Hlast : In (List.last (first :: lines) "") (first :: lines)).
  { clear. revert first. induction lines as [ | next lines IH]; intros first;
      [now left | ].
    right. apply (IH next). }
  apply split_text_of.
  - unfold chunks. apply Forall_forall. intros chunk Hin.
    apply in_map_iff in Hin as (line & <- & Hin).
    assert (Hline : In line (first :: lines)).
    { rewrite (app_removelast_last "" Hnonempty). apply in_or_app. now left. }
    rewrite Forall_forall in Hlines. destruct (Hlines line Hline) as [Hlf Hcr].
    split; [exact Hlf | right; now split].
  - rewrite Forall_forall in Hlines. now apply Hlines.
Qed.

Lemma split_join_round_trip_witness :
  ["# Title"; ""; "Line 2"] <> []
  /\ Forall (fun line => contains LF line = false /\ ends_with CR line = false)
            ["# Title"; ""; "Line 2"]
  /\ split_line_breaks (join line_feed ["# Title"; ""; "Line 2"])
     = ["# Title"; ""; "Line 2"].
Proof.
  assert (Hnonempty : ["# Title"; ""; "Line 2"] <> []) by discriminate.
  assert (Hlines : Forall (fun line => contains LF line = false
                                       /\ ends_with CR line = false)
                          ["# Title"; ""; "Line 2"])
    by (repeat constructor).
  split; [exact Hnonempty | split; [exact Hlines | ] ].
  exact (split_join_round_trip ["# Title"; ""; "Line 2"] Hnonempty Hlines).
Defined.

(* ------------------------------------------------------------------------- *)
(** ** A page list with a nameless item *)

Lemma with_names_all items : forall named,
  with_names items = Some named ->
  forall item, In item items -> exists name, name_of item = Some name.
Proof.
  induction items as [ | first items IH]; intros named Hnamed item Hin;
    [contradiction | ].
  cbn [with_names] in Hnamed.
  destruct (name_of first) as [name | ] eqn:Efirst; [ | discriminate].
  destruct (with_names items) as [rest | ] eqn:Erest; [ | discriminate].
  destruct Hin as [<- | Hin]; [eauto | ].
  now apply (IH rest).
Qed.

(** X14.  When one item of the listed pages has no string [name], reading the
    names fails for the whole list: [coda_search_pages] fetches no content
    and returns an error result carrying the message of the TypeError, not
    the pages that could have been matched. *)
Theorem search_pages_nameless_item :
  forall (world : Type) (up : Upstream world)
         (toLowerCase : string -> string) (type_error : json -> thrown)
         (w w1 : world) (docId query : string) (includeContent : option bool)
         (fields : list (string * json)) (items : list json) (item : json),
    on_listPages up {| lp_docId := docId; lp_limit := None; lp_pageToken := None |} w
    = (w1, inr (JObject fields)) ->
    lookup "items" fields = Some (JArray items) ->
    In item items ->
    (forall properties name,
        item = JObject properties ->
        lookup "name" properties <> Some (JString name)) ->
    run (coda_search_pages up toLowerCase type_error docId query includeContent) w
    = (inr {| content :=
                [Raw ("Failed to search pages : "
                      ++ error_message (type_error (JObject fields)))];
              isError := true |},
       {| now := w1;
          calls := [CallListPages {| lp_docId := docId; lp_limit := None;
                                     lp_pageToken := None |}] |}).
Proof.
  intros world up toLowerCase type_error w w1 docId query includeContent
         fields items item Hlist Hitems Hin Hnameless.
  rewrite run_search_pages. cbv zeta. rewrite Hlist.
  cbn [named_items]. rewrite Hitems.
  destruct (with_names items) as [named | ] eqn:Enamed; [ | reflexivity].
  exfalso.
  destruct (with_names_all items named Enamed item Hin) as [name Hname].
  unfold name_of in Hname.
  destruct item as [ | | | | | properties]; try discriminate.
  destruct (lookup "name" properties) as [[ | | | found | | ] | ] eqn:Ename;
    try discriminate.
  now apply (Hnameless properties found eq_refl).
Qed.

Lemma search_pages_nameless_item_witness :
  let fields :=
    [("items", JArray [MockSearch.page "p1" "Budget";
                       JObject [("id", JString "p2")]])] in
  on_listPages (MockSearch.upstream (JObject fields) MockSearch.content_of)
    {| lp_docId := "doc-123"; lp_limit := None; lp_pageToken := None |} 0
  = (1, inr (JObject fields))
  /\ lookup "items" fields
     = Some (JArray [MockSearch.page "p1" "Budget";
                     JObject [("id", JString "p2")]])
  /\ In (JObject [("id", JString "p2")])
        [MockSearch.page "p1" "Budget"; JObject [("id", JString "p2")]]
  /\ run (coda_search_pages
            (MockSearch.upstream (JObject fields) MockSearch.content_of)
            MockSearch.lower MockSearch.type_error
            "doc-123" "budget" (Some true)) 0
     = (inr {| content :=
                 [Raw "Failed to search pages : Cannot read properties of undefined (reading 'toLowerCase')"];
               isError := true |},
        {| now := 1;
           calls := [CallListPages {| lp_docId := "doc-123"; lp_limit := None;
                                      lp_pageToken := None |}] |}).
Proof.
  intros fields.
  assert (Hin : In (JObject [("id", JString "p2")])
                   [MockSearch.page "p1" "Budget"; JObject [("id", JString "p2")]])
    by (right; now left).
  assert (Hnameless : forall properties name,
             JObject [("id", JString "p2")] = JObject properties ->
             lookup "name" properties <> Some (JString name)).
  { intros properties name Heq. injection Heq as <-. discriminate. }
  split; [reflexivity | split; [reflexivity | split; [exact Hin | ] ] ].
  exact (search_pages_nameless_item
           nat (MockSearch.upstream (JObject fields) MockSearch.content_of)
           MockSearch.lower MockSearch.type_error 0 1 "doc-123" "budget"
           (Some true) fields
           [MockSearch.page "p1" "Budget"; JObject [("id", JString "p2")]]
           (JObject [("id", JString "p2")])
           eq_refl eq_refl Hin Hnameless).
Defined.

(* ------------------------------------------------------------------------- *)
(** ** Searching by name reads no id *)

(** X15.  Without [includeContent] (absent or false), [coda_search_pages]
    needs nothing of the listed items but a string [name]: whatever their
    [id] is, a string, a number or nothing at all, it makes the one call to
    [listPages] and reports the items whose lower-cased name includes the
    lower-cased query, as they were listed and in that order. *)
Theorem search_pages_by_name_reads_no_id :
  forall (world : Type) (up : Upstream world)
         (toLowerCase : string -> string) (type_error : json -> thrown)
         (w w1 : world) (docId query : string) (includeContent : option bool)
         (data : json) (items : list (json * string)),
    includeContent <> Some true ->
    on_listPages up {| lp_docId := docId; lp_limit := None; lp_pageToken := None |} w
    = (w1, inr data) ->
    named_items data = Some items ->
    let found :=
      map fst (filter (fun item => includes (toLowerCase (snd item))
                                            (toLowerCase query)) items) in
    run (coda_search_pages up toLowerCase type_error docId query includeContent) w
    = (inr {| content :=
                [StringifyData
                   (JObject [("items", JArray found);
                             ("searchQuery", JString query);
                             ("searchedContent", JBool false);
                             ("totalFound",
                              JNumber (Z.of_nat (List.length found)))])];
              isError := false |},
       {| now := w1;
          calls := [CallListPages {| lp_docId := docId; lp_limit := None;
                                     lp_pageToken := None |}] |}).
Proof.
  intros world up toLowerCase type_error w w1 docId query includeContent
         data items Hinclude Hlist Hitems found.
  rewrite run_search_pages. cbv zeta. rewrite Hlist, Hitems.
  destruct includeContent as [[ | ] | ]; [now elim Hinclude | | ]; reflexivity.
Qed.

Lemma search_pages_by_name_reads_no_id_witness :
  let without_id := JObject [("name", JString "Budget 2024")] in
  let numbered := JObject [("id", JNumber 5); ("name", JString "Notes")] in
  let data := JObject [("items", JArray [without_id; numbered])] in
  (None : option bool) <> Some true
  /\ on_listPages (MockSearch.upstream data MockSearch.content_of)
       {| lp_docId := "doc-123"; lp_limit := None; lp_pageToken := None |} 0
     = (1, inr data)
  /\ named_items data = Some [(without_id, "Budget 2024"); (numbered, "Notes")]
  /\ run (coda_search_pages (MockSearch.upstream data MockSearch.content_of)
                            MockSearch.lower MockSearch.type_error
                            "doc-123" "budget" None) 0
     = (inr {| content :=
                 [StringifyData
                    (JObject [("items", JArray [without_id]);
                              ("searchQuery", JString "budget");
                              ("searchedContent", JBool false);
                              ("totalFound", JNumber 1)])];
               isError := false |},
        {| now := 1;
           calls := [CallListPages {| lp_docId := "doc-123"; lp_limit := None;
                                      lp_pageToken := None |}] |}).
Proof.
  intros without_id numbered data.
  assert (Hinclude : (None : option bool) <> Some true) by discriminate.
  split; [exact Hinclude | split; [reflexivity | split; [reflexivity | ] ] ].
  exact (search_pages_by_name_reads_no_id
           nat (MockSearch.upstream data MockSearch.content_of)
           MockSearch.lower MockSearch.type_error 0 1 "doc-123" "budget" None
           data [(without_id, "Budget 2024"); (numbered, "Notes")]
           Hinclude eq_refl eq_refl).
Defined.
